(** * crossai-ts: the event-evaluation pipeline of [caits.performance]

    A shallow embedding of [caits/performance/evaluation.py] (the
    orchestrator [robustness_analysis] and its two batch variants) together
    with the event matcher and the trust metrics it calls, and of the
    utilities around it: the augmenting transformer, the model saver, the
    CSV loader and the spectral roll-off.

    Conventions.
    - Python floats are idealised as rationals ([Q]); equality of computed
      numbers is [Qeq] ([==]).
    - A Python [dict] with string keys is a [gmap string _]; a dict that is
      iterated in insertion order is an association list.
    - A call of an imported function is logged in a trace, so that "was this
      stage executed" is a statement about the trace. Exceptions are values
      of type [exn] and short-circuit the rest of the body. *)

From Stdlib Require Import QArith Qminmax Lia Lqa Qfield.
From stdpp Require Import gmap strings list fin_maps.

(** ** Events and temporal Intersection-over-Union *)

Module Detection.

Open Scope Q_scope.

(** An event is a half-open interval [[start, end)] in seconds with a class
    label. *)
Record Event := mkEvent { ev_start : Q; ev_end : Q; ev_class : string }.

Definition valid_interval (s e : Q) : Prop := s < e.

Definition overlap (s1 e1 s2 e2 : Q) : Q :=
  Qmax 0 (Qmin e1 e2 - Qmax s1 s2).

Definition union (s1 e1 s2 e2 : Q) : Q :=
  (e1 - s1) + (e2 - s2) - overlap s1 e1 s2 e2.

(** Modelled from the spec: the IoU helper of [caits.performance.detection]
    is not part of the sources at hand; section 4.5 gives it as
    [overlap / union]. *)
Definition iou (s1 e1 s2 e2 : Q) : Q :=
  overlap s1 e1 s2 e2 / union s1 e1 s2 e2.

Definition identical (s1 e1 s2 e2 : Q) : Prop := s1 == s2 /\ e1 == e2.

(** Two half-open intervals overlap when they share a point. *)
Definition overlapping (s1 e1 s2 e2 : Q) : Prop := s1 < e2 /\ s2 < e1.

Definition iou_ev (g p : Event) : Q :=
  iou (ev_start g) (ev_end g) (ev_start p) (ev_end p).

Definition Qltb (a b : Q) : bool := negb (Qle_bool b a).

(** *** Greedy matching, ground truth as anchor *)

(** Whether candidates are drawn from all predicted events or only from those
    of the ground-truth event's class is a configuration choice. *)
Inductive scope := AcrossClasses | WithinClass.

(** A candidate is a predicted event with its position in the input list. *)
Definition cand : Type := nat * Event.

Definition in_scope (sc : scope) (g : Event) (c : cand) : bool :=
  match sc with
  | AcrossClasses => true
  | WithinClass => String.eqb (ev_class g) (ev_class (snd c))
  end.

(** [beats g c b]: candidate [c] replaces the current best [b], on a strictly
    higher IoU, or on a tie by the earlier start time. *)
Definition beats (g : Event) (c b : cand) : bool :=
  Qltb (iou_ev g (snd b)) (iou_ev g (snd c))
  || (Qeq_bool (iou_ev g (snd c)) (iou_ev g (snd b))
      && Qltb (ev_start (snd c)) (ev_start (snd b))).

Fixpoint select_best (g : Event) (best : cand) (rest : list cand) : cand :=
  match rest with
  | [] => best
  | c :: rest' => select_best g (if beats g c best then c else best) rest'
  end.

Definition best_match (sc : scope) (iou_th : Q) (g : Event)
    (avail : list cand) : option cand :=
  match List.filter (in_scope sc g) avail with
  | [] => None
  | c :: cs =>
      let b := select_best g c cs in
      if Qle_bool iou_th (iou_ev g (snd b)) then Some b else None
  end.

(** Consuming a predicted event removes it from the unconsumed ones. *)
Definition consume (j : nat) (avail : list cand) : list cand :=
  List.filter (fun c => negb (Nat.eqb (fst c) j)) avail.

(** The four buckets, by position: matches pair a ground-truth position with
    a predicted position. *)
Record Outcome := mkOutcome {
  corrects : list (nat * nat);
  substitutions : list (nat * nat);
  deletions : list nat;
  insertions : list nat
}.

Definition no_outcome : Outcome := mkOutcome [] [] [] [].

Fixpoint match_loop (sc : scope) (iou_th : Q) (gts : list cand)
    (avail : list cand) (acc : Outcome) : Outcome :=
  match gts with
  | [] =>
      mkOutcome (corrects acc) (substitutions acc) (deletions acc)
                (List.map fst avail)
  | (i, g) :: gts' =>
      match best_match sc iou_th g avail with
      | None =>
          match_loop sc iou_th gts' avail
            (mkOutcome (corrects acc) (substitutions acc)
                       (deletions acc ++ [i]) (insertions acc))
      | Some (j, p) =>
          let avail' := consume j avail in
          if String.eqb (ev_class p) (ev_class g) then
            match_loop sc iou_th gts' avail'
              (mkOutcome (corrects acc ++ [(i, j)]) (substitutions acc)
                         (deletions acc) (insertions acc))
          else
            match_loop sc iou_th gts' avail'
              (mkOutcome (corrects acc) (substitutions acc ++ [(i, j)])
                         (deletions acc) (insertions acc))
      end
  end.

Definition indexed (l : list Event) : list cand :=
  combine (seq 0 (length l)) l.

(** Modelled from the spec: [classify_events] of
    [caits.performance.detection] is imported by [evaluation.py] but its body
    is not part of the sources at hand; this is the algorithm of section 4.5,
    steps 1 to 5 with the stated tie-break. *)
Definition match_events (sc : scope) (iou_th : Q)
    (predicted ground_truths : list Event) : Outcome :=
  match_loop sc iou_th (indexed ground_truths) (indexed predicted) no_outcome.

(** The tallies, in the order in which [robustness_analysis] unpacks them:
    insertions, corrects, substitutions, deletions. *)
Definition classify_events (sc : scope) (predicted ground_truths : list Event)
    (IoU_th : Q) : nat * nat * nat * nat :=
  let o := match_events sc IoU_th predicted ground_truths in
  (length (insertions o), length (corrects o),
   length (substitutions o), length (deletions o)).

(** Positions of ground-truth events, and of predicted events, that some
    bucket accounts for. *)
Definition gt_accounted (o : Outcome) : list nat :=
  List.map fst (corrects o) ++ List.map fst (substitutions o) ++ deletions o.

Definition pred_accounted (o : Outcome) : list nat :=
  List.map snd (corrects o) ++ List.map snd (substitutions o) ++ insertions o.

End Detection.

(** ** Trust metrics *)

Module Metrics.

Open Scope Q_scope.

(** A metric value is a ratio, or the sentinel for a zero denominator. *)
Inductive metric := NotApplicable | Ratio (q : Q).

Definition ratio (num den : nat) : metric :=
  if Nat.eqb den 0 then NotApplicable
  else Ratio (inject_Z (Z.of_nat num) / inject_Z (Z.of_nat den)).

(** Modelled from the spec: [detection_ratio], [reliability] and [erer] of
    [caits.performance.metrics] are imported by [evaluation.py] but their
    bodies are not part of the sources at hand; the formulas and the
    zero-denominator guard are those of section 4.6. The argument order is
    the one of the call sites in [robustness_analysis]. *)
Definition detection_ratio (corrects deletions substitutions : nat) : metric :=
  ratio corrects (corrects + deletions + substitutions).

Definition reliability (corrects insertions : nat) : metric :=
  ratio corrects (corrects + insertions).

Definition erer (deletions insertions substitutions corrects : nat) : metric :=
  ratio (substitutions + deletions + insertions)
        (corrects + substitutions + deletions).

Definition of_nat (n : nat) : Q := inject_Z (Z.of_nat n).

Definition is_ratio (m : metric) (q : Q) : Prop :=
  match m with
  | NotApplicable => False
  | Ratio r => r == q
  end.

End Metrics.

(** ** Arrays, exceptions and the call trace *)

Module Py.

(** A numpy array: its shape and its entries by index tuple (only index
    tuples inside the shape are meaningful). *)
Record ndarray := mkArray { shape : list nat; get : list nat -> Q }.

Definition ndim (a : ndarray) : nat := length (shape a).

Inductive exn :=
| ValueError (msg : string)
| TypeError (msg : string)
| KeyError (key : string)
| IndexError (msg : string)
| ExternalError (msg : string).

Definition result (A : Type) : Type := exn + A.

(** [a.T]: the axes reversed. *)
Definition T (a : ndarray) : ndarray :=
  mkArray (rev (shape a)) (fun idx => get a (rev idx)).

(** [for x in a]: the sub-arrays along the first axis. *)
Definition iter (a : ndarray) : result (list ndarray) :=
  match shape a with
  | [] => inl (TypeError "iteration over a 0-d array")
  | n :: sh =>
      inr (List.map (fun i => mkArray sh (fun idx => get a (i :: idx)))
                    (seq 0 n))
  end.

Definition shape_eqb (s1 s2 : list nat) : bool :=
  bool_decide (s1 = s2).

(** [numpy.array(items)] for a list of arrays: stacks arrays of one shape
    along a new first axis; the empty list gives the empty 1-d array. *)
Definition array (items : list ndarray) : result ndarray :=
  match items with
  | [] => inr (mkArray [0%nat] (fun _ => 0%Q))
  | x :: _ =>
      if forallb (fun y => shape_eqb (shape y) (shape x)) items then
        inr (mkArray (length items :: shape x)
               (fun idx =>
                  match idx with
                  | [] => 0%Q
                  | i :: idx' =>
                      match items !! i with
                      | Some y => get y idx'
                      | None => 0%Q
                      end
                  end))
      else inl (ValueError "inhomogeneous shape")
  end.

(** [l[i]] for a list and a Python integer: negative indices count from the
    end. *)
Definition getitem {A : Type} (l : list A) (i : Z) : result A :=
  let n := Z.of_nat (length l) in
  let k := if (i <? 0)%Z then (i + n)%Z else i in
  if ((0 <=? k)%Z && (k <? n)%Z)%bool then
    match l !! Z.to_nat k with
    | Some x => inr x
    | None => inl (IndexError "list index out of range")
    end
  else inl (IndexError "list index out of range").

(** [x in l] for a list of strings. *)
Definition contains (x : string) (l : list string) : bool :=
  existsb (String.eqb x) l.

(** [o or d] for an optional list: [None] and the empty list are falsy. *)
Definition or_default (o : option (list string)) (d : list string)
    : list string :=
  match o with
  | None => d
  | Some [] => d
  | Some l => l
  end.

(** The functions a body can call, as they appear in the trace. *)
Inductive callee :=
| generate_probabilities_
| prediction_statistics_
| plot_prediction_probabilities_
| interpolate_probabilities_
| filter_butterworth_
| plot_signal_
| apply_probability_threshold_
| get_continuous_events_
| apply_duration_threshold_
| print_
| classify_events_
| detection_ratio_
| reliability_
| erer_
| get_gt_events_from_dict_
| dataset_getitem_
| values_flatten_
| pipeline_transform_.

Global Instance callee_eq_dec : EqDecision callee.
Proof. solve_decision. Defined.

(** A computation: the calls made so far, and an exception or a value. *)
Definition M (A : Type) : Type := list callee * result A.

Definition ret {A : Type} (a : A) : M A := ([], inr a).

Definition raise {A : Type} (e : exn) : M A := ([], inl e).

Definition bind {A B : Type} (m : M A) (k : A -> M B) : M B :=
  match m with
  | (t, inl e) => (t, inl e)
  | (t, inr a) => let '(t', r) := k a in (t ++ t', r)
  end.

Global Arguments bind : simpl never.

(** Calling [c]: the call is logged whether it returns or raises. *)
Definition invoke {A : Type} (c : callee) (r : result A) : M A := ([c], r).

(** A library operation that is not logged. *)
Definition lift {A : Type} (r : result A) : M A := ([], r).

Definition trace {A : Type} (m : M A) : list callee := fst m.
Definition outcome {A : Type} (m : M A) : result A := snd m.

Fixpoint mapM {A B : Type} (f : A -> M B) (l : list A) : M (list B) :=
  match l with
  | [] => ret []
  | x :: l' =>
      bind (f x) (fun y => bind (mapM f l') (fun ys => ret (y :: ys)))
  end.

(** How often a function was called. *)
Definition calls (c : callee) (t : list callee) : nat :=
  length (List.filter (fun d => bool_decide (d = c)) t).

End Py.

Declare Scope py_scope.
Delimit Scope py_scope with py.
Notation "x <- m ;; k" := (Py.bind m (fun x => k))
  (at level 100, m at next level, right associativity) : py_scope.

(** ** The orchestrator, [caits/performance/evaluation.py] *)

Module Evaluation.

Import Py.
Export Detection(Event, mkEvent, ev_start, ev_end, ev_class).
Export Metrics(metric, NotApplicable, Ratio).

Open Scope py_scope.

(** A label of a dataset instance: an [int] or a [str]. *)
Inductive label := LInt (z : Z) | LStr (s : string).

(** The keyword arguments with which [plot_signal] is called. *)
Record plot_signal_kwargs := mkPlotSignal {
  ps_sr : Z;
  ps_title : option string;
  ps_name : option string;
  ps_mode : option string;
  ps_channels : list string + string;
  ps_figsize : Q * Q;
  ps_events : option (list Event);
  ps_class_names : option (list string)
}.

(** The functions imported from modules that are not part of the sources at
    hand, and the opaque objects they work on. Each may raise. *)
Class Externals := {
  Model : Type;
  Figure : Type;
  PotentialEvents : Type;
  EventsDict : Type;
  Dataset : Type;
  DataFrame : Type;
  Pipeline : Type;
  generate_probabilities : Model -> ndarray -> Z -> result ndarray;
  prediction_statistics : ndarray -> string -> result (gmap string ndarray);
  plot_prediction_probabilities :
    ndarray -> Z -> Q -> Q -> list string -> Q * Q -> option string ->
    list Event -> result Figure;
  interpolate_probabilities :
    ndarray -> Z -> Q -> Q -> option Z -> result ndarray;
  filter_butterworth : ndarray -> Z -> string -> Q -> Z -> result ndarray;
  plot_signal : ndarray -> plot_signal_kwargs -> result Figure;
  apply_probability_threshold : ndarray -> Q -> result ndarray;
  get_continuous_events : ndarray -> result PotentialEvents;
  apply_duration_threshold :
    ndarray -> PotentialEvents -> Z -> Q -> result (ndarray * list Event);
  classify_events :
    list Event -> list Event -> Q -> result (nat * nat * nat * nat);
  detection_ratio : nat -> nat -> nat -> result metric;
  reliability : nat -> nat -> result metric;
  erer : nat -> nat -> nat -> nat -> result metric;
  get_gt_events_from_dict :
    EventsDict -> list string -> Z -> result (list (string * list Event));
  dataset_getitem : Dataset -> nat -> nat -> result Dataset;
  dataset_X : Dataset -> list DataFrame;
  dataset_y : Dataset -> list label;
  values_flatten : DataFrame -> result ndarray;
  pipeline_transform : Pipeline -> Dataset -> result ndarray
}.

Definition _OPTIONS : list string :=
  ["transformed_data"; "prediction_probas"; "trust_metrics";
   "non_overlapping_probas"; "interpolated_probas"; "smoothed_probas";
   "thresholded_probas"; "predicted_events"; "ICSD"; "figures"]%string.

Section Orchestrator.

Context {E : Externals}.

(** What a result bundle can hold. *)
Inductive value :=
| VArray (a : ndarray)
| VStats (s : gmap string ndarray)
| VFigures (f : gmap string Figure)
| VCount (n : nat)
| VMetric (m : metric).

(** The parameters of [robustness_analysis]. *)
Record ra_args := mkArgs {
  model : Model;
  input_data : ndarray;
  class_names : list string;
  sr : Z;
  ws : Q;
  overlap_percentage : Q;
  ground_truths : list Event;
  cutoff : Q;
  repeats : Z;
  metrics : string;
  interp_choice : option Z;
  prob_th : Q;
  dur_th : Q;
  iou_th : Q;
  figsize : Q * Q;
  x_axis : option string;
  options_to_include : option (list string)
}.

(** [results[key] = v] under [if key in options_to_include]. *)
Definition store_if (opts : list string) (key : string) (field : string)
    (v : value) (results : gmap string value) : gmap string value :=
  if contains key opts then <[field := v]> results else results.

(** The smoothing stage: the low-pass filter on every class channel. *)
Definition smooth (interpolated_probas : ndarray) (sr : Z) (cutoff : Q)
    : M ndarray :=
  channels <- lift (iter (T interpolated_probas)) ;;
  filtered <- mapM (fun cls_probas =>
                invoke filter_butterworth_
                  (filter_butterworth cls_probas sr "lowpass" cutoff 3))
              channels ;;
  stacked <- lift (array filtered) ;;
  ret (T stacked).

Definition robustness_analysis (a : ra_args) : M (gmap string value) :=
  if (ndim (input_data a) <? 2)%nat then
    raise (ValueError "`input_data` must be at least 2D.")
  else
    let results : gmap string value := ∅ in
    let opts := or_default (options_to_include a) _OPTIONS in
    let results :=
      store_if opts "transformed_data" "transformed_data"
               (VArray (input_data a)) results in
    prediction_probas <-
      invoke generate_probabilities_
        (generate_probabilities (model a) (input_data a) (repeats a)) ;;
    let results :=
      store_if opts "prediction_probas" "prediction_probas"
               (VArray prediction_probas) results in
    pred_stats <-
      invoke prediction_statistics_
        (prediction_statistics prediction_probas (metrics a)) ;;
    let results :=
      store_if opts "pred_stats" "pred_stats" (VStats pred_stats) results in
    mean_probas <-
      lift (match pred_stats !! "mean_pred"%string with
            | Some x => inr x
            | None => inl (KeyError "mean_pred")
            end) ;;
    pred_probas_fig <-
      invoke plot_prediction_probabilities_
        (plot_prediction_probabilities mean_probas (sr a) (ws a)
           (overlap_percentage a) (class_names a) (figsize a) (x_axis a)
           (ground_truths a)) ;;
    interpolated_probas <-
      invoke interpolate_probabilities_
        (interpolate_probabilities mean_probas (sr a) (ws a)
           (overlap_percentage a) (interp_choice a)) ;;
    let results :=
      store_if opts "interpolated_probas" "interpolated_probas"
               (VArray interpolated_probas) results in
    smoothed_probas <- smooth interpolated_probas (sr a) (cutoff a) ;;
    let results :=
      store_if opts "smoothed_probas" "smoothed_probas"
               (VArray smoothed_probas) results in
    interp_smoothed_probas_fig <-
      invoke plot_signal_
        (plot_signal smoothed_probas
           (mkPlotSignal (sr a)
              (Some "Interpolated Prediction Probabilities"%string) None
              (x_axis a) (inl (class_names a)) (figsize a)
              (Some (ground_truths a)) (Some (class_names a)))) ;;
    threshold_probas <-
      invoke apply_probability_threshold_
        (apply_probability_threshold smoothed_probas (prob_th a)) ;;
    potential_events <-
      invoke get_continuous_events_
        (get_continuous_events threshold_probas) ;;
    thresholded <-
      invoke apply_duration_threshold_
        (apply_duration_threshold threshold_probas potential_events (sr a)
           (dur_th a)) ;;
    let threshold_probas := fst thresholded in
    let predicted_events := snd thresholded in
    let results :=
      store_if opts "thresholded_probas" "thresholded_probas"
               (VArray threshold_probas) results in
    thresh_probas_fig <-
      invoke plot_signal_
        (plot_signal threshold_probas
           (mkPlotSignal (sr a)
              (Some "Thresholded Interpolated Prediction Probabilities"%string)
              None (x_axis a) (inl (class_names a)) (figsize a)
              (Some (ground_truths a)) (Some (class_names a)))) ;;
    let results :=
      store_if opts "figures" "figures"
        (VFigures (<["thresh_probas_fig" := thresh_probas_fig]>
                   (<["interp_probas_fig" := interp_smoothed_probas_fig]>
                    (<["pred_probas_fig" := pred_probas_fig]> ∅))))
        results in
    _ <- invoke print_ (inr tt) ;;
    _ <- invoke print_ (inr tt) ;;
    icsd <-
      invoke classify_events_
        (classify_events predicted_events (ground_truths a) (iou_th a)) ;;
    let '(insertions, corrects, substitutions, deletions) := icsd in
    let results :=
      store_if opts "ICSD" "deletions" (VCount deletions)
        (store_if opts "ICSD" "substitutions" (VCount substitutions)
           (store_if opts "ICSD" "corrects" (VCount corrects)
              (store_if opts "ICSD" "Insertions" (VCount insertions)
                 results))) in
    if contains "trust_metrics" opts then
      dr <- invoke detection_ratio_
              (detection_ratio corrects deletions substitutions) ;;
      let results := <["DR" := VMetric dr]> results in
      rel <- invoke reliability_ (reliability corrects insertions) ;;
      let results := <["Reliability" := VMetric rel]> results in
      er <- invoke erer_
              (erer deletions insertions substitutions corrects) ;;
      let results := <["ERER" := VMetric er]> results in
      ret results
    else ret results.

(** *** Calls by keyword *)

(** An argument value at a call site. *)
Inductive arg :=
| ANone
| AModel (m : Model)
| AArray (a : ndarray)
| AStrings (l : list string)
| AInt (z : Z)
| AFloat (q : Q)
| AEvents (l : list Event)
| AString (s : string)
| APair (p : Q * Q).

Definition kwargs : Type := list (string * arg).

Fixpoint assoc {A : Type} (k : string) (l : list (string * A)) : option A :=
  match l with
  | [] => None
  | (k', v) :: l' => if String.eqb k k' then Some v else assoc k l'
  end.

(** The signature of [robustness_analysis]: parameter names in order, with
    the default value of those that have one. *)
Definition robustness_analysis_params : list (string * option arg) :=
  [("model", None); ("input_data", None); ("class_names", None);
   ("sr", None); ("ws", None); ("overlap_percentage", None);
   ("ground_truths", None); ("cutoff", None);
   ("repeats", Some (AInt 5)); ("metrics", Some (AString "all"));
   ("interp_choice", Some (AInt 2)); ("prob_th", Some (AFloat 0.7));
   ("dur_th", Some (AFloat 1)); ("iou_th", Some (AFloat 0.5));
   ("figsize", Some (APair (14, 6)%Q)); ("x_axis", Some (AString "time"));
   ("options_to_include", Some ANone)]%string.

(** The first keyword of the call that names no parameter. *)
Definition unexpected_keyword (params : list (string * option arg))
    (kw : kwargs) : option string :=
  option_map fst
    (List.find (fun k => negb (contains (fst k) (List.map fst params))) kw).

(** The parameters without default that the call leaves out. *)
Definition missing_arguments (params : list (string * option arg))
    (kw : kwargs) : list string :=
  List.map fst
    (List.filter
       (fun p => match snd p with
                 | None => negb (contains (fst p) (List.map fst kw))
                 | Some _ => false
                 end) params).

(** Binding the keywords of a call to the parameters of [fname]: a keyword
    that names no parameter is a [TypeError], then a parameter without
    default that is left out is one. *)
Definition bind_keywords (fname : string)
    (params : list (string * option arg)) (kw : kwargs) : result kwargs :=
  match unexpected_keyword params kw with
  | Some k =>
      inl (TypeError (fname ++ "() got an unexpected keyword argument '"
                      ++ k ++ "'"))
  | None =>
      match missing_arguments params kw with
      | _ :: _ as names =>
          inl (TypeError (fname ++ "() missing required arguments: "
                          ++ String.concat ", " names))
      | [] =>
          inr (List.map
                 (fun p => (fst p,
                            match assoc (fst p) kw, snd p with
                            | Some v, _ => v
                            | None, Some d => d
                            | None, None => ANone
                            end)) params)
      end
  end.

(** Reading a bound argument at the type the body uses it at. The callers
    below pass every argument at its declared type, so the [TypeError]
    branches of these readers are never taken from them. *)
Definition wrong_type {A : Type} (name : string) : result A :=
  inl (TypeError ("argument '" ++ name ++ "' has an unsupported type")).

Definition arg_model (env : kwargs) (name : string) : result Model :=
  match assoc name env with Some (AModel m) => inr m | _ => wrong_type name end.
Definition arg_array (env : kwargs) (name : string) : result ndarray :=
  match assoc name env with Some (AArray a) => inr a | _ => wrong_type name end.
Definition arg_strings (env : kwargs) (name : string) : result (list string) :=
  match assoc name env with
  | Some (AStrings l) => inr l
  | _ => wrong_type name
  end.
Definition arg_int (env : kwargs) (name : string) : result Z :=
  match assoc name env with Some (AInt z) => inr z | _ => wrong_type name end.
Definition arg_float (env : kwargs) (name : string) : result Q :=
  match assoc name env with
  | Some (AFloat q) => inr q
  | Some (AInt z) => inr (inject_Z z)
  | _ => wrong_type name
  end.
Definition arg_events (env : kwargs) (name : string) : result (list Event) :=
  match assoc name env with
  | Some (AEvents l) => inr l
  | _ => wrong_type name
  end.
Definition arg_string (env : kwargs) (name : string) : result string :=
  match assoc name env with
  | Some (AString x) => inr x
  | _ => wrong_type name
  end.
Definition arg_pair (env : kwargs) (name : string) : result (Q * Q) :=
  match assoc name env with Some (APair x) => inr x | _ => wrong_type name end.
Definition arg_opt_int (env : kwargs) (name : string) : result (option Z) :=
  match assoc name env with
  | Some (AInt z) => inr (Some z)
  | Some ANone => inr None
  | _ => wrong_type name
  end.
Definition arg_opt_string (env : kwargs) (name : string)
    : result (option string) :=
  match assoc name env with
  | Some (AString x) => inr (Some x)
  | Some ANone => inr None
  | _ => wrong_type name
  end.
Definition arg_opt_strings (env : kwargs) (name : string)
    : result (option (list string)) :=
  match assoc name env with
  | Some (AStrings l) => inr (Some l)
  | Some ANone => inr None
  | _ => wrong_type name
  end.

Definition options_arg (o : option (list string)) : arg :=
  match o with
  | None => ANone
  | Some l => AStrings l
  end.

(** A call of [robustness_analysis] with the keywords [kw]. *)
Definition call_robustness_analysis (kw : kwargs) : M (gmap string value) :=
  env <- lift (bind_keywords "robustness_analysis"
                 robustness_analysis_params kw) ;;
  a_model <- lift (arg_model env "model") ;;
  a_input_data <- lift (arg_array env "input_data") ;;
  a_class_names <- lift (arg_strings env "class_names") ;;
  a_sr <- lift (arg_int env "sr") ;;
  a_ws <- lift (arg_float env "ws") ;;
  a_overlap_percentage <- lift (arg_float env "overlap_percentage") ;;
  a_ground_truths <- lift (arg_events env "ground_truths") ;;
  a_cutoff <- lift (arg_float env "cutoff") ;;
  a_repeats <- lift (arg_int env "repeats") ;;
  a_metrics <- lift (arg_string env "metrics") ;;
  a_interp_choice <- lift (arg_opt_int env "interp_choice") ;;
  a_prob_th <- lift (arg_float env "prob_th") ;;
  a_dur_th <- lift (arg_float env "dur_th") ;;
  a_iou_th <- lift (arg_float env "iou_th") ;;
  a_figsize <- lift (arg_pair env "figsize") ;;
  a_x_axis <- lift (arg_opt_string env "x_axis") ;;
  a_options_to_include <- lift (arg_opt_strings env "options_to_include") ;;
  robustness_analysis
    (mkArgs a_model a_input_data a_class_names a_sr a_ws
       a_overlap_percentage a_ground_truths a_cutoff a_repeats a_metrics
       a_interp_choice a_prob_th a_dur_th a_iou_th a_figsize a_x_axis
       a_options_to_include).

(** *** The batch variants *)

(** The parameters that [robustness_analysis_many] and
    [robustness_analysis_batch] share. *)
Record batch_config := mkConfig {
  b_model : Model;
  b_events : EventsDict;
  b_class_names : list string;
  b_sample_rate : Z;
  b_ws : Q;
  b_perc_overlap : Q;
  b_cutoff : Q;
  b_repeats : Z;
  b_metrics : string;
  b_prob_th : Q;
  b_duration_th : Q;
  b_iou_th : Q;
  b_options_to_include : option (list string);
  b_figsize : Q * Q
}.

(** The keywords with which both batch variants call
    [robustness_analysis], in the order of the call. *)
Definition instance_call (c : batch_config) (input_data : ndarray)
    (gt_events : list Event) (opts : option (list string)) : kwargs :=
  [("model", AModel (b_model c));
   ("input_data", AArray input_data);
   ("class_names", AStrings (b_class_names c));
   ("cutoff", AFloat (b_cutoff c));
   ("sample_rate", AInt (b_sample_rate c));
   ("ws", AFloat (b_ws c));
   ("perc_overlap", AFloat (b_perc_overlap c));
   ("ground_truths", AEvents gt_events);
   ("repeats", AInt (b_repeats c));
   ("metrics", AString (b_metrics c));
   ("prob_th", AFloat (b_prob_th c));
   ("duration_th", AFloat (b_duration_th c));
   ("iou_th", AFloat (b_iou_th c));
   ("options_to_include", options_arg opts);
   ("figsize", APair (b_figsize c))]%string.

Abbreviation bundles := (gmap string (gmap string value)).

Fixpoint many_loop (c : batch_config) (X : list ndarray) (i : nat)
    (items : list (string * list Event)) (results : bundles) : M bundles :=
  match items with
  | [] => ret results
  | (filename, gt_events) :: items' =>
      ts_input_data <- lift (getitem X (Z.of_nat i)) ;;
      ts_instance_results <-
        call_robustness_analysis
          (instance_call c ts_input_data gt_events (b_options_to_include c)) ;;
      many_loop c X (S i) items' (<[filename := ts_instance_results]> results)
  end.

Definition robustness_analysis_many (c : batch_config) (X : list ndarray)
    : M bundles :=
  ground_truths_dict <-
    invoke get_gt_events_from_dict_
      (get_gt_events_from_dict (b_events c) (b_class_names c)
         (b_sample_rate c)) ;;
  many_loop c X 0 ground_truths_dict ∅.

(** [results.setdefault(filename, {}).setdefault("figures", {})[key] = fig] *)
Definition set_figure (filename key : string) (fig : Figure)
    (results : bundles) : result bundles :=
  let inner := default ∅ (results !! filename) in
  match default (VFigures ∅) (inner !! "figures"%string) with
  | VFigures figs =>
      inr (<[filename :=
              <["figures"%string := VFigures (<[key := fig]> figs)]> inner]>
           results)
  | _ => inl (TypeError "object does not support item assignment")
  end.

Fixpoint batch_loop (c : batch_config) (pipeline : Pipeline)
    (dataset : Dataset) (opts : list string) (i : nat)
    (items : list (string * list Event)) (results : bundles) : M bundles :=
  match items with
  | [] => ret results
  | (filename, gt_events) :: items' =>
      dataset_instance <-
        invoke dataset_getitem_ (dataset_getitem dataset i (i + 1)) ;;
      label0 <- lift (getitem (dataset_y dataset_instance) 0) ;;
      lbl <- lift (match label0 with
                   | LInt z => getitem (b_class_names c) z
                   | LStr x => inr x
                   end) ;;
      results <-
        (if contains "figures" opts then
           x0 <- lift (getitem (dataset_X dataset_instance) 0) ;;
           flat <- invoke values_flatten_ (values_flatten x0) ;;
           pilot_signal <-
             invoke plot_signal_
               (plot_signal flat
                  (mkPlotSignal (b_sample_rate c) None
                     (Some "Pilot Signal"%string) (Some "samples"%string)
                     (inr lbl) (b_figsize c) None None)) ;;
           lift (set_figure filename "pilot_signal" pilot_signal results)
         else ret results) ;;
      input_data <-
        invoke pipeline_transform_
          (pipeline_transform pipeline dataset_instance) ;;
      instance_results <-
        call_robustness_analysis
          (instance_call c input_data gt_events (Some opts)) ;;
      batch_loop c pipeline dataset opts (S i) items'
        (<[filename := instance_results]> results)
  end.

Definition robustness_analysis_batch (pipeline : Pipeline)
    (c : batch_config) (dataset : Dataset) : M bundles :=
  let opts := or_default (b_options_to_include c) _OPTIONS in
  ground_truths_dict <-
    invoke get_gt_events_from_dict_
      (get_gt_events_from_dict (b_events c) (b_class_names c)
         (b_sample_rate c)) ;;
  batch_loop c pipeline dataset opts 0 ground_truths_dict ∅.

End Orchestrator.

End Evaluation.

(** ** Vocabulary for statements about a run *)

Module RunSpec.

Import Py Evaluation.

(** Which key of the allow-list governs which field of the bundle. *)
Definition field_keys : list (string * string) :=
  [("transformed_data", "transformed_data");
   ("prediction_probas", "prediction_probas");
   ("pred_stats", "pred_stats");
   ("interpolated_probas", "interpolated_probas");
   ("smoothed_probas", "smoothed_probas");
   ("thresholded_probas", "thresholded_probas");
   ("figures", "figures");
   ("Insertions", "ICSD"); ("corrects", "ICSD");
   ("substitutions", "ICSD"); ("deletions", "ICSD");
   ("DR", "trust_metrics"); ("Reliability", "trust_metrics");
   ("ERER", "trust_metrics")]%string.

(** The field [f] is governed by a key that is in [opts]. *)
Definition populated (opts : list string) (f : string) : bool :=
  existsb (fun fk => String.eqb (fst fk) f && contains (snd fk) opts)
          field_keys.

(** The allow-list in force: the supplied one, or the default list when none
    or an empty one is supplied. *)
Definition effective (o : option (list string)) : list string :=
  or_default o _OPTIONS.

(** The calls of the trust metrics under the allow-list [opts]. *)
Definition metric_calls (opts : list string) : list callee :=
  if contains "trust_metrics" opts
  then [detection_ratio_; reliability_; erer_] else [].

(** What was asked for: a key of the supplied allow-list, or of the default
    list when no list is supplied. *)
Definition requested (o : option (list string)) (key : string) : Prop :=
  match o with
  | Some l => In key l
  | None => In key _OPTIONS
  end.

Definition map_result {A B : Type} (f : A -> B) (x : result A) : result B :=
  match x with
  | inl e => inl e
  | inr a => inr (f a)
  end.

Definition unexpected_sample_rate : exn :=
  TypeError
    "robustness_analysis() got an unexpected keyword argument 'sample_rate'".

Section Runs.

Context {E : Externals}.

Definition with_options (a : ra_args) (o : option (list string)) : ra_args :=
  mkArgs (model a) (input_data a) (class_names a) (sr a) (ws a)
    (overlap_percentage a) (ground_truths a) (cutoff a) (repeats a)
    (metrics a) (interp_choice a) (prob_th a) (dur_th a) (iou_th a)
    (figsize a) (x_axis a) o.

(** The claim on the allow-list, as the specification words it: a field is
    populated only when its key was asked for, and the classification counts
    and the trust metrics are computed whatever was asked for. *)
Definition populated_only_when_requested (a : ra_args)
    : Prop :=
  forall (r : gmap string value) (f : string),
    outcome (robustness_analysis a) = inr r -> is_Some (r !! f) ->
    exists key, In (f, key) field_keys /\ requested (options_to_include a) key.

Definition counts_and_metrics_always_computed (a : ra_args)
    : Prop :=
  forall (r : gmap string value) (c : callee),
    outcome (robustness_analysis a) = inr r ->
    In c [classify_events_; detection_ratio_; reliability_; erer_] ->
    (1 <= calls c (trace (robustness_analysis a)))%nat.

Definition allow_list_claim (a : ra_args) : Prop :=
  populated_only_when_requested a /\ counts_and_metrics_always_computed a.

End Runs.

End RunSpec.

(** ** Concrete collaborators, for running the orchestrator *)

Module Sample.

Import Py Evaluation.

(** A curve of four samples and two class channels. *)
Definition curve : ndarray :=
  mkArray [4; 2]%nat
    (fun idx => match idx with
                | [i; j] => inject_Z (Z.of_nat (i + j)) / 10
                | _ => 0
                end)%Q.

Definition signal : ndarray := mkArray [4%nat] (fun _ => 0%Q).

Definition ground_truth : list Event := [mkEvent 1.2 2.8 "A"].

(** Collaborators that always return: the classifier repeats its input, the
    filter and the thresholds leave the curve as it is, one event is
    predicted, and the matcher and the metrics are those of sections 4.5 and
    4.6. *)
Definition externals : Externals := {|
  Model := unit;
  Figure := string;
  PotentialEvents := list Event;
  EventsDict := list (string * list Event);
  Dataset := list (ndarray * label);
  DataFrame := ndarray;
  Pipeline := unit;
  generate_probabilities := fun _ x repeats =>
    inr (mkArray (Z.to_nat repeats :: shape x) (fun idx => get x (tail idx)));
  prediction_statistics := fun p _ =>
    inr {[ "mean_pred"%string :=
             mkArray (tail (shape p)) (fun idx => get p (0%nat :: idx)) ]};
  plot_prediction_probabilities := fun _ _ _ _ _ _ _ _ =>
    inr "Prediction Probabilities"%string;
  interpolate_probabilities := fun p _ _ _ _ => inr p;
  filter_butterworth := fun x _ _ _ _ => inr x;
  plot_signal := fun _ kw =>
    inr (default (default "" (ps_name kw)) (ps_title kw));
  apply_probability_threshold := fun p _ => inr p;
  get_continuous_events := fun _ => inr [mkEvent 1 3 "A"];
  apply_duration_threshold := fun p ev _ _ => inr (p, ev);
  classify_events := fun p g th =>
    inr (Detection.classify_events Detection.AcrossClasses p g th);
  detection_ratio := fun c d s => inr (Metrics.detection_ratio c d s);
  reliability := fun c i => inr (Metrics.reliability c i);
  erer := fun d i s c => inr (Metrics.erer d i s c);
  get_gt_events_from_dict := fun ev _ _ => inr ev;
  dataset_getitem := fun d i j => inr (take (j - i) (drop i d));
  dataset_X := List.map fst;
  dataset_y := List.map snd;
  values_flatten := fun x => inr x;
  pipeline_transform := fun _ d =>
    match d with
    | (x, _) :: _ => inr x
    | [] => inl (ValueError "empty dataset")
    end
|}.

Definition args (input : ndarray) (opts : option (list string))
    : @ra_args externals :=
  @mkArgs externals tt input ["A"; "B"]%string 1 1 0.5%Q ground_truth 0.25%Q
    5 "all" (Some 2%Z) 0.7%Q 1%Q 0.5%Q (14, 6)%Q (Some "time"%string) opts.

Definition config (opts : option (list string)) : @batch_config externals :=
  @mkConfig externals tt [("a.csv"%string, ground_truth)] ["A"; "B"]%string
    1 1 0.5%Q 0.25%Q 5 "all" 0.7%Q 1%Q 0.5%Q opts (14, 6)%Q.

End Sample.

(** ** More collaborators, for the edge cases *)

Module Scenarios.

Import Py Evaluation.
Export Sample.

(** The collaborators of [Sample.externals] with other statistics and
    another filter. *)
Definition externals_with
    (stats : ndarray -> gmap string ndarray)
    (filt : ndarray -> result ndarray) : Externals := {|
  Model := unit;
  Figure := string;
  PotentialEvents := list Event;
  EventsDict := list (string * list Event);
  Dataset := list (ndarray * label);
  DataFrame := ndarray;
  Pipeline := unit;
  generate_probabilities := @generate_probabilities externals;
  prediction_statistics := fun p _ => inr (stats p);
  plot_prediction_probabilities := @plot_prediction_probabilities externals;
  interpolate_probabilities := @interpolate_probabilities externals;
  filter_butterworth := fun x _ _ _ _ => filt x;
  plot_signal := @plot_signal externals;
  apply_probability_threshold := @apply_probability_threshold externals;
  get_continuous_events := @get_continuous_events externals;
  apply_duration_threshold := @apply_duration_threshold externals;
  classify_events := @classify_events externals;
  detection_ratio := @detection_ratio externals;
  reliability := @reliability externals;
  erer := @erer externals;
  get_gt_events_from_dict := @get_gt_events_from_dict externals;
  dataset_getitem := @dataset_getitem externals;
  dataset_X := @dataset_X externals;
  dataset_y := @dataset_y externals;
  values_flatten := @values_flatten externals;
  pipeline_transform := @pipeline_transform externals
|}.

(** Statistics that lack the mean. *)
Definition std_only (p : ndarray) : gmap string ndarray :=
  {[ "std_pred"%string := p ]}.

Definition without_mean : Externals :=
  externals_with std_only (fun x => inr x).

(** A filter that raises on a channel that does not start at zero. *)
Definition picky_filter : Externals :=
  externals_with
    (fun p => {[ "mean_pred"%string := p ]})
    (fun x => if Qle_bool (get x [0%nat]) 0 then inr x
              else inl (ExternalError "filter")).

Definition args_with (stats : ndarray -> gmap string ndarray)
    (filt : ndarray -> result ndarray) (input : ndarray)
    (opts : option (list string)) : @ra_args (externals_with stats filt) :=
  @mkArgs (externals_with stats filt) tt input ["A"; "B"]%string 1 1 0.5%Q
    ground_truth 0.25%Q 5 "all" (Some 2%Z) 0.7%Q 1%Q 0.5%Q (14, 6)%Q
    (Some "time"%string) opts.

Definition config_for (events : list (string * list Event))
    (opts : option (list string)) : @batch_config externals :=
  @mkConfig externals tt events ["A"; "B"]%string
    1 1 0.5%Q 0.25%Q 5 "all" 0.7%Q 1%Q 0.5%Q opts (14, 6)%Q.

End Scenarios.

(** ** Vocabulary for statements about the stages and the batch variants *)

Module StageSpec.

Import Py Evaluation.

(** The [j]-th class channel of a curve of [n] samples, as the loop of the
    smoothing stage sees it: the [j]-th row of the transposed curve. *)
Definition channel (curve : ndarray) (n j : nat) : ndarray :=
  mkArray [n] (fun idx => get (T curve) (j :: idx)).

Definition index_error : exn := IndexError "list index out of range".

Section Stages.

Context {E : Externals}.

(** What [r !! f] is when the field [f] is stored under the key [key]. *)
Definition stored (opts : list string) (key : string) (v : value)
    : option value :=
  if contains key opts then Some v else None.

Definition filter_channel (sr : Z) (cutoff : Q) (x : ndarray) : M ndarray :=
  invoke filter_butterworth_
    (filter_butterworth x sr "lowpass" cutoff 3).

(** What the pilot-signal plot is called with. *)
Definition pilot_plot (c : batch_config) (lbl : string) : plot_signal_kwargs :=
  mkPlotSignal (b_sample_rate c) None (Some "Pilot Signal"%string)
    (Some "samples"%string) (inr lbl) (b_figsize c) None None.

End Stages.

End StageSpec.

(** ** The augmenting transformer, [caits/transformers/_augmentation.py] *)

Module Augmentation.

Import Py.

(** Data frames and their columns are pandas objects; [df_apply f df] is
    [df.apply(f)], which calls [f] on the columns and may raise. Labels,
    ids and keyword parameters are opaque. *)
Class Pandas := {
  DataFrame : Type;
  Column : Type;
  Values : Type;
  Params : Type;
  Label : Type;
  Id : Type;
  df_apply : (Column -> result Values) -> DataFrame -> result DataFrame;
  col_values : Column -> Values
}.

Section Augmenter.

Context {P : Pandas}.

(** [caits.dataset.Dataset], as far as the transformer uses it: three lists
    side by side. *)
Record Dataset := mkDataset {
  X : list DataFrame;
  y : list Label;
  _id : list Id
}.

(** An augmentation: a function on the values of a column, and its keyword
    parameters. *)
Definition augmentation : Type := (Values -> Params -> result Values) * Params.

Record Augmenter := mkAugmenter {
  augmentations : list augmentation;
  repeats : Z
}.

Definition fit (self : Augmenter) (data : Dataset) : Augmenter := self.

(** [df.apply(lambda col: func(col.values, **params))] *)
Definition augment (a : augmentation) (df : DataFrame) : result DataFrame :=
  df_apply (fun col => fst a (col_values col) (snd a)) df.

(** The inner loop: one augmented copy per augmentation, appended with the
    label and the id of the instance. *)
Fixpoint augment_all (augs : list augmentation) (df : DataFrame)
    (label : Label) (id_ : Id) (acc : Dataset) : result Dataset :=
  match augs with
  | [] => inr acc
  | a :: augs' =>
      match augment a df with
      | inl e => inl e
      | inr augmented_df =>
          augment_all augs' df label id_
            (mkDataset (X acc ++ [augmented_df]) (y acc ++ [label])
                       (_id acc ++ [id_]))
      end
  end.

(** [zip(X.X, X.y, X._id)]: stops with the shortest of the three. *)
Fixpoint zip3 (xs : list DataFrame) (ys : list Label) (ids : list Id)
    : list (DataFrame * Label * Id) :=
  match xs, ys, ids with
  | x :: xs', l :: ys', i :: ids' => (x, l, i) :: zip3 xs' ys' ids'
  | _, _, _ => []
  end.

Fixpoint transform_loop (self : Augmenter)
    (rows : list (DataFrame * Label * Id)) (acc : Dataset) : result Dataset :=
  match rows with
  | [] => inr acc
  | (df, label, id_) :: rows' =>
      let kept :=
        mkDataset (X acc ++ [df]) (y acc ++ [label]) (_id acc ++ [id_]) in
      match augment_all (augmentations self) df label id_ kept with
      | inl e => inl e
      | inr acc' => transform_loop self rows' acc'
      end
  end.

Definition transform (self : Augmenter) (data : Dataset) : result Dataset :=
  transform_loop self (zip3 (X data) (y data) (_id data))
    (mkDataset [] [] []).

(** The number of instances that [zip] pairs up. *)
Definition instances (data : Dataset) : nat :=
  length (zip3 (X data) (y data) (_id data)).

(** Each element of a list, [k] times in a row. *)
Definition each_repeated {A : Type} (k : nat) (l : list A) : list A :=
  flat_map (fun a => repeat a k) l.

(** The block of an instance: the original, then the augmented copies in the
    order of the augmentations. *)
Definition is_block (self : Augmenter) (df : DataFrame)
    (block : list DataFrame) : Prop :=
  exists copies : list DataFrame,
    block = df :: copies
    /\ Forall2 (fun a copy => augment a df = inr copy)
               (augmentations self) copies.

(** The augmentations all return on the frame of the row. *)
Definition augmentable (self : Augmenter) (row : DataFrame * Label * Id)
    : Prop :=
  Forall (fun a => exists copy, augment a (fst (fst row)) = inr copy)
         (augmentations self).

End Augmenter.

(** Frames of integer columns, for running the transformer. *)
Definition int_frames : Pandas := {|
  DataFrame := list (list Z);
  Column := list Z;
  Values := list Z;
  Params := Z;
  Label := string;
  Id := nat;
  df_apply := fun f =>
    fix go (cols : list (list Z)) : result (list (list Z)) :=
      match cols with
      | [] => inr []
      | col :: cols' =>
          match f col with
          | inl e => inl e
          | inr v =>
              match go cols' with
              | inl e => inl e
              | inr vs => inr (v :: vs)
              end
          end
      end;
  col_values := fun col => col
|}.

Definition shift : @augmentation int_frames :=
  (fun (v : list Z) (p : Z) => inr (List.map (Z.add p) v), 1%Z).

Definition scale : @augmentation int_frames :=
  (fun (v : list Z) (p : Z) => inr (List.map (Z.mul p) v), 2%Z).

Definition two_instances : @Dataset int_frames :=
  @mkDataset int_frames [[[1; 2]]; [[3; 4]]]%Z ["a"; "b"]%string
    [7; 8; 9]%nat.

Definition aligned_instances : @Dataset int_frames :=
  @mkDataset int_frames [[[1; 2]]; [[3; 4]]]%Z ["a"; "b"]%string [7; 8]%nat.

End Augmentation.

(** ** Saving a model, [caits/transformers/utils.py] *)

Module Persist.

Import Py.

(** [s.endswith(suffix)]: some tail of [s] is [suffix]. *)
Fixpoint endswith (s suffix : string) : bool :=
  String.eqb s suffix
  || match s with
     | EmptyString => false
     | String _ s' => endswith s' suffix
     end.

(** What the function does to the outside: the file it dumps to, the line it
    prints. *)
Inductive effect :=
| Dumped (filename : string)
| Printed (line : string).

Definition not_a_model : exn :=
  ValueError
    "The model must be a scikit-learn                          BaseEstimator or Pipeline instance.".

(** The name the model is saved under. *)
Definition pkl_name (filename : string) : string :=
  if negb (endswith filename ".pkl") then filename ++ ".pkl" else filename.

Section SklearnToPkl.

(** [is_estimator model] is [isinstance(model, (BaseEstimator, Pipeline))];
    [dump] is [joblib.dump], which may raise. *)
Variable Model : Type.
Variable is_estimator : Model -> bool.
Variable dump : Model -> string -> result unit.

Definition sklearn_to_pkl (model : Model) (filename : string)
    : list effect * result unit :=
  if negb (is_estimator model) then ([], inl not_a_model)
  else
    let filename := pkl_name filename in
    match dump model filename with
    | inl e => ([Dumped filename], inl e)
    | inr _ =>
        ([Dumped filename; Printed ("Model saved to " ++ filename)], inr tt)
    end.

End SklearnToPkl.

End Persist.

(** ** Loading CSV files, [caits/loading/_csv_read.py] *)

Module Loading.

Import Py.

(** *** [os.path] on POSIX paths *)

(** The separator, ["/"]. *)
Definition slash : Ascii.ascii :=
  Ascii.Ascii true true true true false true false false.

(** [rsplit p] is [(p[:i], p[i:])] for [i = p.rfind("/") + 1]. *)
Fixpoint rsplit (p : string) : string * string :=
  match p with
  | EmptyString => (EmptyString, EmptyString)
  | String c p' =>
      let '(h, t) := rsplit p' in
      if String.eqb h "" then
        if Ascii.eqb c slash then (String c "", p') else ("", String c p')
      else (String c h, t)
  end%string.

Definition basename (p : string) : string := snd (rsplit p).

(** [s.rstrip("/")] *)
Fixpoint rstrip_slashes (s : string) : string :=
  match s with
  | EmptyString => EmptyString
  | String c s' =>
      let r := rstrip_slashes s' in
      if (String.eqb r "" && Ascii.eqb c slash)%bool then EmptyString
      else String c r
  end%string.

Definition dirname (p : string) : string :=
  let head := fst (rsplit p) in
  if (negb (String.eqb head "")
      && negb (String.eqb (rstrip_slashes head) ""))%bool
  then rstrip_slashes head else head.

(** [os.path.join(a, b)] *)
Definition join (a b : string) : string :=
  if match b with
     | String c _ => Ascii.eqb c slash
     | EmptyString => false
     end
  then b
  else if (String.eqb a "" || Persist.endswith a "/")%bool then (a ++ b)%string
  else (a ++ "/" ++ b)%string.

(** A path component: a name without separator. *)
Fixpoint no_slash (s : string) : bool :=
  match s with
  | EmptyString => true
  | String c s' => negb (Ascii.eqb c slash) && no_slash s'
  end.

(** The file [dir/label/file]. *)
Definition in_class_directory (dir label file : string) : string :=
  (dir ++ String slash (label ++ String slash file))%string.

(** *** The loader *)

Section CsvLoader.

(** [glob] lists the files that match a pattern, subdirectories included;
    [read_csv] is [pandas.read_csv] with the [header] and, when given, the
    [usecols] argument; [make_frame] is the [pandas.DataFrame] built from
    the three lists. *)
Variables DataFrame Frame Header : Type.
Variable glob : string -> list string.
Variable read_csv :
  string -> Header -> option (list string) -> result DataFrame.
Variable make_frame : list DataFrame -> list string -> list string -> Frame.

Inductive loaded :=
| AsFrame (f : Frame)
| AsDict (X : list DataFrame) (y : list string) (id : list string)
| ReturnsNone.

(** The state of the loop: the three lists, and the error lines printed. *)
Record progress := mkProgress {
  all_features : list DataFrame;
  all_y : list string;
  all_id : list string;
  printed : list (string * exn)
}.

Fixpoint load (header : Header) (channels : option (list string))
    (file_paths : list string) (acc : progress) : progress :=
  match file_paths with
  | [] => acc
  | file_path :: rest =>
      let subdir := basename (dirname file_path) in
      let file := basename file_path in
      match read_csv file_path header channels with
      | inr df =>
          load header channels rest
            (mkProgress (all_features acc ++ [df]) (all_y acc ++ [subdir])
                        (all_id acc ++ [file]) (printed acc))
      | inl e =>
          load header channels rest
            (mkProgress (all_features acc) (all_y acc) (all_id acc)
                        (printed acc ++ [(file_path, e)]))
      end
  end.

Definition search_pattern (dataset_path : string) : string :=
  join (join dataset_path "**") "*.csv".

Definition csv_loader (dataset_path : string) (header : Header)
    (channels : option (list string)) (export : string)
    : list (string * exn) * loaded :=
  let file_paths := glob (search_pattern dataset_path) in
  let done := load header channels file_paths (mkProgress [] [] [] []) in
  (printed done,
   if String.eqb export "df" then
     AsFrame (make_frame (all_features done) (all_y done) (all_id done))
   else if String.eqb export "dict" then
     AsDict (all_features done) (all_y done) (all_id done)
   else ReturnsNone).

(** Whether a file can be read. *)
Definition readable (header : Header) (channels : option (list string))
    (file_path : string) : bool :=
  match read_csv file_path header channels with
  | inr _ => true
  | inl _ => false
  end.

End CsvLoader.

(** A directory with two class folders, for running the loader; a frame is
    stood for by the path it was read from. *)
Definition two_classes (pattern : string) : list string :=
  ["data/walk/a.csv"; "data/run/b.csv"]%string.

Definition read_path (file_path : string) (header : unit)
    (usecols : option (list string)) : result string :=
  inr file_path.

End Loading.

(** ** Spectral roll-off, [caits/fe/_spectral.py] *)

Module Spectral.

Import Py.
Open Scope Q_scope.

(** [numpy.cumsum] *)
Fixpoint cumsum_from (start : Q) (l : list Q) : list Q :=
  match l with
  | [] => []
  | x :: l' => (start + x) :: cumsum_from (start + x) l'
  end.

Definition cumsum (l : list Q) : list Q := cumsum_from 0 l.

(** [numpy.where(l >= threshold)[0]]: the positions, in increasing order. *)
Fixpoint where_ge_from (i : nat) (l : list Q) (threshold : Q) : list nat :=
  match l with
  | [] => []
  | x :: l' =>
      if Qle_bool threshold x then i :: where_ge_from (S i) l' threshold
      else where_ge_from (S i) l' threshold
  end.

Definition where_ge (l : list Q) (threshold : Q) : list nat :=
  where_ge_from 0 l threshold.

(** [numpy.min] of an array of positions: raises on the empty array. *)
Definition np_min (l : list nat) : result nat :=
  match l with
  | [] =>
      inl (ValueError
             "zero-size array to reduction operation minimum which has no identity")
  | x :: l' => inr (fold_left Nat.min l' x)
  end.

(** [spectral_rolloff] after the call of [underlying_spectral], which gives
    the magnitudes of the spectrum and their sum. *)
Definition spectral_rolloff (magnitudes : list Q) (sum_mag perc : Q)
    : result nat :=
  let cumsum_mag := cumsum magnitudes in
  np_min (where_ge cumsum_mag (perc * sum_mag)).

End Spectral.

(** * Properties *)

(** ** Intersection-over-Union *)

Module IoUFacts.

Import Detection.
Open Scope Q_scope.

Section Intervals.

Variables s1 e1 s2 e2 : Q.
Hypothesis valid1 : valid_interval s1 e1.
Hypothesis valid2 : valid_interval s2 e2.

Lemma overlap_nonneg : 0 <= overlap s1 e1 s2 e2.
Proof. unfold overlap. apply Q.le_max_l. Qed.

Lemma overlap_le_first : overlap s1 e1 s2 e2 <= e1 - s1.
Proof.
  unfold overlap, valid_interval in *.
  destruct (Q.max_spec 0 (Qmin e1 e2 - Qmax s1 s2)) as [[_ ->]|[_ ->]];
    destruct (Q.min_spec e1 e2) as [[? Hm]|[? Hm]];
    destruct (Q.max_spec s1 s2) as [[? Hx]|[? Hx]];
    rewrite ?Hm, ?Hx; lra.
Qed.

Lemma overlap_le_second : overlap s1 e1 s2 e2 <= e2 - s2.
Proof.
  unfold overlap, valid_interval in *.
  destruct (Q.max_spec 0 (Qmin e1 e2 - Qmax s1 s2)) as [[_ ->]|[_ ->]];
    destruct (Q.min_spec e1 e2) as [[? Hm]|[? Hm]];
    destruct (Q.max_spec s1 s2) as [[? Hx]|[? Hx]];
    rewrite ?Hm, ?Hx; lra.
Qed.

Lemma union_pos : 0 < union s1 e1 s2 e2.
Proof.
  unfold union. pose proof overlap_le_second.
  unfold valid_interval in *. lra.
Qed.

Lemma overlap_le_union : overlap s1 e1 s2 e2 <= union s1 e1 s2 e2.
Proof.
  unfold union. pose proof overlap_le_first. pose proof overlap_le_second.
  unfold valid_interval in *. lra.
Qed.

Lemma overlap_eq_union_iff :
  overlap s1 e1 s2 e2 == union s1 e1 s2 e2 <-> identical s1 e1 s2 e2.
Proof.
  unfold union, identical, overlap, valid_interval in *.
  destruct (Q.max_spec 0 (Qmin e1 e2 - Qmax s1 s2)) as [[Ho ->]|[Ho ->]];
    destruct (Q.min_spec e1 e2) as [[He Hm]|[He Hm]];
    destruct (Q.max_spec s1 s2) as [[Hs Hx]|[Hs Hx]];
    rewrite ?Hm, ?Hx in *; split; intros Hyp; try split; lra.
Qed.

Lemma overlap_zero_iff :
  overlap s1 e1 s2 e2 == 0 <-> ~ overlapping s1 e1 s2 e2.
Proof.
  unfold overlapping, overlap, valid_interval in *.
  destruct (Q.max_spec 0 (Qmin e1 e2 - Qmax s1 s2)) as [[Ho ->]|[Ho ->]];
    destruct (Q.min_spec e1 e2) as [[He Hm]|[He Hm]];
    destruct (Q.max_spec s1 s2) as [[Hs Hx]|[Hs Hx]];
    rewrite ?Hm, ?Hx in *; split; intros Hyp;
    try (intros [Ha Hb]); try lra;
    exfalso; apply Hyp; split; lra.
Qed.

End Intervals.

Lemma div_eq_one (a b : Q) : 0 < b -> (a / b == 1 <-> a == b).
Proof.
  intros Hb. split; intros H.
  - assert (Hab : a == (a / b) * b) by (field; lra).
    rewrite Hab, H. ring.
  - rewrite H. field. lra.
Qed.

Lemma div_eq_zero (a b : Q) : 0 < b -> (a / b == 0 <-> a == 0).
Proof.
  intros Hb. split; intros H.
  - assert (Hab : a == (a / b) * b) by (field; lra).
    rewrite Hab, H. ring.
  - rewrite H. field. lra.
Qed.

(** C2. For valid half-open intervals the IoU, computed as overlap over
    union, lies in [0, 1]; it is 1 exactly when the two intervals are
    identical and 0 exactly when they do not overlap. *)
Theorem iou_bounds_and_extremes (s1 e1 s2 e2 : Q) :
  valid_interval s1 e1 -> valid_interval s2 e2 ->
  0 <= iou s1 e1 s2 e2 /\ iou s1 e1 s2 e2 <= 1
  /\ (iou s1 e1 s2 e2 == 1 <-> identical s1 e1 s2 e2)
  /\ (iou s1 e1 s2 e2 == 0 <-> ~ overlapping s1 e1 s2 e2).
Proof.
  intros V1 V2.
  pose proof (union_pos s1 e1 s2 e2 V1 V2) as Hu.
  pose proof (overlap_nonneg s1 e1 s2 e2) as Ho.
  pose proof (overlap_le_union s1 e1 s2 e2 V1 V2) as Hle.
  unfold iou. split; [|split; [|split; split]].
  - apply Qle_shift_div_l; [exact Hu | lra].
  - apply Qle_shift_div_r; [exact Hu | lra].
  - intros H. apply overlap_eq_union_iff; [assumption..|].
    now apply div_eq_one.
  - intros H. apply div_eq_one; [exact Hu|].
    now apply overlap_eq_union_iff.
  - intros H. apply overlap_zero_iff; [assumption..|].
    now apply (div_eq_zero _ _ Hu).
  - intros H. apply (div_eq_zero _ _ Hu).
    now apply overlap_zero_iff.
Qed.

Lemma iou_bounds_and_extremes_witness :
  valid_interval 1 3 /\ valid_interval 1.2 2.8
  /\ 0 <= iou 1 3 1.2 2.8 /\ iou 1 3 1.2 2.8 <= 1
  /\ (iou 1 3 1.2 2.8 == 1 <-> identical 1 3 1.2 2.8)
  /\ (iou 1 3 1.2 2.8 == 0 <-> ~ overlapping 1 3 1.2 2.8).
Proof.
  split; [reflexivity | split; [reflexivity |]].
  apply (iou_bounds_and_extremes 1 3 1.2 2.8); reflexivity.
Defined.

End IoUFacts.

(** ** Trust metrics *)

Module MetricsFacts.

Import Metrics.
Open Scope Q_scope.

Lemma of_nat_add (a b : nat) : of_nat (a + b) == of_nat a + of_nat b.
Proof. unfold of_nat. now rewrite Nat2Z.inj_add, inject_Z_plus. Qed.

Lemma ratio_defined (num den : nat) :
  den <> 0%nat -> ratio num den = Ratio (of_nat num / of_nat den).
Proof.
  intros Hden. unfold ratio.
  destruct (Nat.eqb_spec den 0) as [->|_]; [contradiction | reflexivity].
Qed.

Lemma ratio_undefined (num : nat) : ratio num 0 = NotApplicable.
Proof. reflexivity. Qed.

(** C3. With a nonzero denominator the three metrics are the quotients
    C/(C+D+S), C/(C+I) and (S+D+I)/(C+S+D); for C=8, S=1, D=1, I=2 they are
    0.8, 0.8 and 0.4. *)
Theorem trust_metric_formulas :
  (forall C S D I : nat,
      ((C + D + S)%nat <> 0%nat ->
       is_ratio (detection_ratio C D S)
                (of_nat C / (of_nat C + of_nat D + of_nat S)))
      /\ ((C + I)%nat <> 0%nat ->
          is_ratio (reliability C I) (of_nat C / (of_nat C + of_nat I)))
      /\ ((C + S + D)%nat <> 0%nat ->
          is_ratio (erer D I S C)
                   ((of_nat S + of_nat D + of_nat I)
                    / (of_nat C + of_nat S + of_nat D))))
  /\ is_ratio (detection_ratio 8 1 1) 0.8
  /\ is_ratio (reliability 8 2) 0.8
  /\ is_ratio (erer 1 2 1 8) 0.4.
Proof.
  split; [|repeat split; reflexivity].
  intros C S D I. split; [|split]; intros Hden.
  - unfold detection_ratio. rewrite (ratio_defined _ _ Hden). simpl.
    now rewrite !of_nat_add.
  - unfold reliability. rewrite (ratio_defined _ _ Hden). simpl.
    now rewrite !of_nat_add.
  - unfold erer. rewrite (ratio_defined _ _ Hden). simpl.
    now rewrite !of_nat_add.
Qed.

(** C4. A metric whose denominator is zero is the [NotApplicable] sentinel:
    the functions are total and have no exceptional outcome. *)
Theorem zero_denominator_not_applicable (C S D I : nat) :
  ((C + D + S)%nat = 0%nat -> detection_ratio C D S = NotApplicable)
  /\ ((C + I)%nat = 0%nat -> reliability C I = NotApplicable)
  /\ ((C + S + D)%nat = 0%nat -> erer D I S C = NotApplicable).
Proof.
  unfold detection_ratio, reliability, erer.
  split; [|split]; intros ->; apply ratio_undefined.
Qed.

Lemma zero_denominator_not_applicable_witness :
  (0 + 0 + 0)%nat = 0%nat /\ (0 + 0)%nat = 0%nat
  /\ detection_ratio 0 0 0 = NotApplicable
  /\ reliability 0 0 = NotApplicable
  /\ erer 0 0 0 0 = NotApplicable.
Proof.
  destruct (zero_denominator_not_applicable 0 0 0 0) as (Hdr & Hrel & Her).
  split; [reflexivity | split; [reflexivity |]].
  split; [apply Hdr; reflexivity |].
  split; [apply Hrel; reflexivity | apply Her; reflexivity].
Defined.

Lemma trust_metric_formulas_witness :
  (8 + 1 + 1)%nat <> 0%nat /\ (8 + 2)%nat <> 0%nat
  /\ is_ratio (detection_ratio 8 1 1)
              (of_nat 8 / (of_nat 8 + of_nat 1 + of_nat 1))
  /\ is_ratio (reliability 8 2) (of_nat 8 / (of_nat 8 + of_nat 2))
  /\ is_ratio (erer 1 2 1 8)
              ((of_nat 1 + of_nat 1 + of_nat 2)
               / (of_nat 8 + of_nat 1 + of_nat 1)).
Proof.
  destruct trust_metric_formulas as [Hall _].
  destruct (Hall 8 1 1 2)%nat as (Hdr & Hrel & Her).
  split; [discriminate | split; [discriminate |]].
  split; [apply Hdr; discriminate |].
  split; [apply Hrel; discriminate | apply Her; discriminate].
Defined.

End MetricsFacts.

(** ** The event matcher *)

Module MatcherFacts.

Import Detection.

Definition positions (l : list cand) : list nat := List.map fst l.

Lemma select_best_In (g : Event) (rest : list cand) :
  forall best, In (select_best g best rest) (best :: rest).
Proof.
  induction rest as [|c rest IH]; intros best; simpl.
  - now left.
  - destruct (IH (if beats g c best then c else best)) as [Heq | Hin].
    + destruct (beats g c best); rewrite <- Heq; auto.
    + auto.
Qed.

Lemma best_match_In (sc : scope) (th : Q) (g : Event) (avail : list cand)
    (b : cand) :
  best_match sc th g avail = Some b -> In b avail.
Proof.
  unfold best_match.
  destruct (List.filter (in_scope sc g) avail) as [|c cs] eqn:Hf;
    [discriminate|].
  destruct (Qle_bool th _); [|discriminate].
  intros [= <-].
  apply (proj1 (filter_In (in_scope sc g) _ avail)).
  rewrite Hf. apply select_best_In.
Qed.

Lemma consume_absent (j : nat) (avail : list cand) :
  ~ In j (positions avail) -> consume j avail = avail.
Proof.
  induction avail as [|[k q] avail IH]; simpl; intros Hnot; [reflexivity|].
  destruct (Nat.eqb_spec k j) as [->|Hne]; simpl.
  - exfalso. apply Hnot. now left.
  - f_equal. apply IH. intros Hin. apply Hnot. now right.
Qed.

Lemma consume_positions (j : nat) (avail : list cand) :
  List.NoDup (positions avail) -> In j (positions avail) ->
  Permutation (positions avail) (j :: positions (consume j avail)).
Proof.
  induction avail as [|[k q] avail IH]; simpl; intros Hnd Hin; [easy|].
  inversion Hnd as [|? ? Hk Hnd']; subst.
  destruct (Nat.eqb_spec k j) as [->|Hne]; simpl.
  - fold (consume j avail). now rewrite consume_absent.
  - destruct Hin as [->|Hin]; [contradiction|].
    fold (consume j avail). rewrite (IH Hnd' Hin) at 1. apply perm_swap.
Qed.

Lemma consume_NoDup (j : nat) (avail : list cand) :
  List.NoDup (positions avail) -> List.NoDup (positions (consume j avail)).
Proof.
  induction avail as [|[k q] avail IH]; simpl; intros Hnd; [constructor|].
  inversion Hnd as [|? ? Hk Hnd']; subst.
  destruct (Nat.eqb k j); simpl; [now apply IH|].
  constructor; [|now apply IH].
  intros Hin. apply Hk. unfold positions, consume in *.
  apply in_map_iff in Hin as [c [Hc Hin]].
  apply filter_In in Hin as [Hin _].
  apply in_map_iff. now exists c.
Qed.

(** The loop keeps every position accounted for: what the accumulator holds,
    the ground-truth events still to come and the unconsumed predictions end
    up spread over the buckets. *)
Lemma match_loop_accounts (sc : scope) (th : Q) (gts : list cand) :
  forall (avail : list cand) (acc : Outcome),
    List.NoDup (positions avail) ->
    let o := match_loop sc th gts avail acc in
    Permutation (gt_accounted o) (gt_accounted acc ++ positions gts)
    /\ Permutation (pred_accounted o)
         (List.map snd (corrects acc) ++ List.map snd (substitutions acc)
          ++ positions avail).
Proof.
  induction gts as [|[i g] gts IH]; intros avail acc Hnd; simpl.
  - unfold gt_accounted, pred_accounted; simpl.
    rewrite app_nil_r. split; reflexivity.
  - destruct (best_match sc th g avail) as [[j p]|] eqn:Hbest.
    + assert (Hin : In j (positions avail)).
      { apply best_match_In in Hbest. apply in_map_iff. now exists (j, p). }
      pose proof (consume_positions j avail Hnd Hin) as Hperm.
      pose proof (consume_NoDup j avail Hnd) as Hnd'.
      destruct (String.eqb (ev_class p) (ev_class g));
        match goal with
        | |- context [match_loop _ _ _ _ ?acc'] =>
            destruct (IH (consume j avail) acc' Hnd') as [Hg Hp]
        end;
        (split;
         [ rewrite Hg | rewrite Hp, Hperm ];
         unfold gt_accounted; simpl; rewrite List.map_app; simpl;
         solve_Permutation).
    + match goal with
      | |- context [match_loop _ _ _ _ ?acc'] =>
          destruct (IH avail acc' Hnd) as [Hg Hp]
      end.
      split; [|exact Hp].
      rewrite Hg. unfold gt_accounted; simpl. solve_Permutation.
Qed.

Lemma positions_indexed (l : list Event) :
  positions (indexed l) = seq 0 (length l).
Proof.
  unfold positions, indexed.
  generalize 0%nat. induction l as [|x l IH]; intros n; simpl;
    [reflexivity | now rewrite IH].
Qed.

Lemma NoDup_app_l {A : Type} (l1 l2 : list A) :
  List.NoDup (l1 ++ l2) -> List.NoDup l1.
Proof.
  induction l1 as [|x l1 IH]; simpl; intros Hnd; [constructor|].
  inversion Hnd as [|? ? Hx Hnd']; subst.
  constructor; [|now apply IH].
  intros Hin. apply Hx. apply in_or_app. now left.
Qed.

(** C1. [classify_events] partitions its input: every ground-truth position
    is in exactly one of correct, substitution, deletion and every predicted
    position in exactly one of correct, substitution, insertion (the
    positions the buckets hold are a permutation of all positions, so none
    is dropped and none occurs twice); the correct matches pair distinct
    ground-truth events with distinct predicted events, and the tallies
    returned count each match once on both sides. *)
Theorem classify_events_partition (sc : scope) (th : Q)
    (predicted ground_truths : list Event) :
  let o := match_events sc th predicted ground_truths in
  Permutation (gt_accounted o) (seq 0 (length ground_truths))
  /\ Permutation (pred_accounted o) (seq 0 (length predicted))
  /\ List.NoDup (List.map fst (corrects o))
  /\ List.NoDup (List.map snd (corrects o))
  /\ classify_events sc predicted ground_truths th
     = (length (insertions o), length (corrects o),
        length (substitutions o), length (deletions o))
  /\ (length (corrects o) + length (substitutions o) + length (deletions o)
      = length ground_truths)%nat
  /\ (length (corrects o) + length (substitutions o) + length (insertions o)
      = length predicted)%nat.
Proof.
  intros o.
  assert (Hnd : List.NoDup (positions (indexed predicted))).
  { rewrite positions_indexed. apply List.seq_NoDup. }
  destruct (match_loop_accounts sc th (indexed ground_truths)
              (indexed predicted) no_outcome Hnd) as [Hg Hp].
  fold (match_events sc th predicted ground_truths) in Hg, Hp. fold o in Hg, Hp.
  simpl in Hg, Hp. rewrite positions_indexed in Hg, Hp.
  split; [exact Hg | split; [exact Hp |]].
  assert (Hndg : List.NoDup (gt_accounted o)).
  { apply (Permutation_NoDup (Permutation_sym Hg)), List.seq_NoDup. }
  assert (Hndp : List.NoDup (pred_accounted o)).
  { apply (Permutation_NoDup (Permutation_sym Hp)), List.seq_NoDup. }
  split; [exact (NoDup_app_l _ _ Hndg) |].
  split; [exact (NoDup_app_l _ _ Hndp) |].
  split; [reflexivity |].
  apply Permutation_length in Hg, Hp.
  unfold gt_accounted, pred_accounted in Hg, Hp.
  rewrite !length_app, !length_map, length_seq in Hg, Hp.
  split; lia.
Qed.

(** Boundary cases: without predicted events every ground-truth event is a
    deletion; without ground-truth events every predicted event is an
    insertion. *)
Lemma match_loop_no_candidates (sc : scope) (th : Q) (gts : list cand) :
  forall acc : Outcome,
    match_loop sc th gts [] acc
    = mkOutcome (corrects acc) (substitutions acc)
                (deletions acc ++ positions gts) [].
Proof.
  induction gts as [|[i g] gts IH]; intros acc; simpl.
  - now rewrite app_nil_r.
  - unfold best_match. simpl. rewrite IH. simpl.
    now rewrite <- app_assoc.
Qed.

Lemma no_predictions_all_deletions (sc : scope) (th : Q)
    (ground_truths : list Event) :
  match_events sc th [] ground_truths
  = mkOutcome [] [] (seq 0 (length ground_truths)) [].
Proof.
  unfold match_events. rewrite match_loop_no_candidates. simpl.
  now rewrite positions_indexed.
Qed.

Lemma no_ground_truth_all_insertions (sc : scope) (th : Q)
    (predicted : list Event) :
  match_events sc th predicted []
  = mkOutcome [] [] [] (seq 0 (length predicted)).
Proof.
  unfold match_events. simpl.
  now rewrite <- positions_indexed.
Qed.

(** The two matching scenarios: [1.0, 3.0) against [1.2, 2.8) has IoU
    1.6 / 2.0, above the threshold 0.5: correct when the classes agree,
    a substitution when they differ. *)
Example scenario_correct :
  classify_events AcrossClasses [mkEvent 1 3 "A"] [mkEvent 1.2 2.8 "A"] 0.5
  = (0, 1, 0, 0)%nat.
Proof. reflexivity. Qed.

Example scenario_substitution :
  classify_events AcrossClasses [mkEvent 1 3 "A"] [mkEvent 1.2 2.8 "B"] 0.5
  = (0, 0, 1, 0)%nat.
Proof. reflexivity. Qed.

End MatcherFacts.

(** ** The orchestrator *)

Module RunFacts.

Import Py Evaluation RunSpec.
Open Scope py_scope.

Section Runs.

Context {E : Externals}.

Lemma bind_returned {A B : Type} (t : list callee) (x : A) (k : A -> M B) :
  bind (t, inr x) k = (t ++ trace (k x), outcome (k x)).
Proof. unfold bind, trace, outcome. now destruct (k x). Qed.

Lemma bind_raised {A B : Type} (t : list callee) (e : exn) (k : A -> M B) :
  bind (t, inl e) k = (t, inl e).
Proof. reflexivity. Qed.

Lemma calls_app (c : callee) (t1 t2 : list callee) :
  calls c (t1 ++ t2) = (calls c t1 + calls c t2)%nat.
Proof. unfold calls. now rewrite List.filter_app, length_app. Qed.

Lemma lookup_store_if_ne (opts : list string) (key fld f : string)
    (v : value) (m : gmap string value) :
  fld <> f -> store_if opts key fld v m !! f = m !! f.
Proof.
  intros Hne. unfold store_if.
  destruct (contains key opts); [now rewrite lookup_insert_ne | reflexivity].
Qed.

Lemma lookup_store_if_eq (opts : list string) (key fld : string)
    (v : value) (m : gmap string value) :
  store_if opts key fld v m !! fld
  = if contains key opts then Some v else m !! fld.
Proof.
  unfold store_if.
  destruct (contains key opts); [now rewrite lookup_insert_eq | reflexivity].
Qed.

(** The smoothing stage calls nothing but the filter. *)
Lemma mapM_filter_trace (sr : Z) (cutoff : Q) (l : list ndarray) :
  Forall (eq filter_butterworth_)
    (trace (mapM (fun cls_probas =>
                    invoke filter_butterworth_
                      (filter_butterworth cls_probas sr "lowpass" cutoff 3))
                 l)).
Proof.
  induction l as [|x l IH]; simpl; [constructor|].
  unfold invoke at 1.
  destruct (filter_butterworth x sr "lowpass" cutoff 3) as [e|y].
  - rewrite bind_raised. simpl. repeat constructor.
  - rewrite bind_returned. simpl. constructor; [reflexivity|].
    destruct (mapM _ l) as [t [e|ys]].
    + rewrite bind_raised. exact IH.
    + rewrite bind_returned. simpl in *. now rewrite app_nil_r.
Qed.

Lemma smooth_trace (a : ndarray) (sr : Z) (cutoff : Q) :
  Forall (eq filter_butterworth_) (trace (smooth a sr cutoff)).
Proof.
  unfold smooth, lift.
  destruct (iter (T a)) as [e|channels].
  - rewrite bind_raised. constructor.
  - rewrite bind_returned. simpl.
    pose proof (mapM_filter_trace sr cutoff channels) as Hf.
    destruct (mapM _ channels) as [t [e|ys]].
    + rewrite bind_raised. exact Hf.
    + rewrite bind_returned. simpl in *.
      destruct (array ys).
      * rewrite bind_raised. simpl. now rewrite app_nil_r.
      * rewrite bind_returned. simpl. now rewrite app_nil_r.
Qed.

Lemma calls_filter_only (c : callee) (t : list callee) :
  c <> filter_butterworth_ -> Forall (eq filter_butterworth_) t ->
  calls c t = 0%nat.
Proof.
  intros Hne. induction 1 as [|d t <- _ IH]; [reflexivity|].
  unfold calls in *. simpl.
  rewrite bool_decide_eq_false_2; [exact IH | congruence].
Qed.

(** One step of a run: split on whether the first computation of a [bind]
    raised or returned. *)
Ltac run_step :=
  match goal with
  | |- context [bind ?m ?k] =>
      let t := fresh "t" in
      let e := fresh "e" in
      let x := fresh "x" in
      let Hm := fresh "Hm" in
      destruct m as [t [e|x]] eqn:Hm;
      [ rewrite !bind_raised; cbn [outcome trace fst snd];
        try (intros Hraised; discriminate Hraised)
      | rewrite !bind_returned; cbn [outcome trace fst snd];
        cbv beta zeta ]
  end.

Ltac lookup_chain :=
  repeat first
    [ rewrite lookup_insert_eq
    | rewrite lookup_insert_ne by congruence
    | rewrite lookup_store_if_eq
    | rewrite lookup_store_if_ne by congruence
    | rewrite lookup_empty ].

(** Settling [is_Some (r !! f) <-> populated opts f = true] for a bundle [r]
    that is a chain of stores: the field is one of the fourteen, or none. *)
Ltac field_known opts :=
  lookup_chain;
  repeat match goal with
         | |- context [contains ?k opts] =>
             generalize (contains k opts); intro
         end;
  match goal with
  | |- _ <-> ?rhs = true =>
      let v := eval vm_compute in rhs in change rhs with v
  end;
  repeat match goal with
         | |- context [if ?b then _ else _] => destruct b
         end;
  cbn [orb andb];
  (split;
   [ first [ intros _; reflexivity | intros [? H]; discriminate H ]
   | first [ intros _; eexists; reflexivity | intros H; discriminate H ] ]).

Ltac field_case f name opts :=
  destruct (decide (f = name)) as [->|?]; [field_known opts|].

Ltac field_cases f opts Htm :=
  unfold populated, field_keys; cbn [existsb fst snd];
  rewrite ?Htm;
  field_case f "transformed_data"%string opts;
  field_case f "prediction_probas"%string opts;
  field_case f "pred_stats"%string opts;
  field_case f "interpolated_probas"%string opts;
  field_case f "smoothed_probas"%string opts;
  field_case f "thresholded_probas"%string opts;
  field_case f "figures"%string opts;
  field_case f "Insertions"%string opts;
  field_case f "corrects"%string opts;
  field_case f "substitutions"%string opts;
  field_case f "deletions"%string opts;
  field_case f "DR"%string opts;
  field_case f "Reliability"%string opts;
  field_case f "ERER"%string opts;
  lookup_chain;
  repeat match goal with
         | |- context [String.eqb ?n f] =>
             rewrite (proj2 (String.eqb_neq n f)) by congruence
         end;
  cbn [orb andb];
  split; [intros [? H]; discriminate H | intros H; discriminate H].

Ltac invoked H :=
  let Ht := fresh "Ht" in
  unfold invoke, lift in H; injection H as Ht H; subst.

(** What a run that returns has done: it passed the dimension check, it
    called every stage once and in order (the filter once per channel), the
    trust metrics being called only under ["trust_metrics"], and it filled
    the fields that the allow-list in force asks for. *)
Lemma run_inv (a : ra_args) (r : gmap string value) :
  outcome (robustness_analysis a) = inr r ->
  (2 <= ndim (input_data a))%nat
  /\ (exists ts : list callee,
        Forall (eq filter_butterworth_) ts
        /\ trace (robustness_analysis a)
           = [generate_probabilities_; prediction_statistics_;
              plot_prediction_probabilities_; interpolate_probabilities_]
             ++ ts
             ++ [plot_signal_; apply_probability_threshold_;
                 get_continuous_events_; apply_duration_threshold_;
                 plot_signal_; print_; print_; classify_events_]
             ++ metric_calls (effective (options_to_include a)))
  /\ (forall f : string,
        is_Some (r !! f)
        <-> populated (effective (options_to_include a)) f = true).
Proof.
  unfold robustness_analysis, effective, metric_calls.
  set (opts := or_default (options_to_include a) _OPTIONS).
  destruct (Nat.ltb_spec (ndim (input_data a)) 2) as [Hlt|Hge];
    [intros Hraised; discriminate Hraised|].
  do 13 run_step.
  match goal with
  | H : invoke classify_events_ _ = (_, inr ?icsd) |- _ =>
      destruct icsd as [[[insertions corrects] substitutions] deletions]
  end.
  match goal with
  | H : smooth ?p ?s ?c = (?t, _) |- _ =>
      pose proof (smooth_trace p s c) as Hsmooth;
      rewrite H in Hsmooth; cbn [trace fst] in Hsmooth
  end.
  destruct (contains "trust_metrics" opts) eqn:Htm.
  - do 3 run_step.
    repeat match goal with
           | H : invoke _ _ = (_, _) |- _ => invoked H
           | H : lift _ = (_, _) |- _ => invoked H
           end.
    unfold ret; cbn [outcome trace fst snd]. intros [= <-].
    split; [exact Hge|]. split.
    + exists t4. split; [exact Hsmooth|].
      simpl. rewrite <- ?app_assoc. reflexivity.
    + intros f. field_cases f opts Htm.
  - repeat match goal with
           | H : invoke _ _ = (_, _) |- _ => invoked H
           | H : lift _ = (_, _) |- _ => invoked H
           end.
    unfold ret; cbn [outcome trace fst snd]. intros [= <-].
    split; [exact Hge|]. split.
    + exists t4. split; [exact Hsmooth|].
      simpl. rewrite <- ?app_assoc. reflexivity.
    + intros f. field_cases f opts Htm.
Qed.

End Runs.

End RunFacts.

Module OrchestratorFacts.

Import Py Evaluation RunSpec RunFacts Sample.
Open Scope py_scope.

Section Orchestrator.

Context {E : Externals}.

(** C7. With fewer than two axes the call raises the validation error at
    once: no stage has been called (the trace is empty) and there is no
    bundle, only the exception. *)
Theorem too_few_axes_rejected (a : ra_args) :
  (ndim (input_data a) < 2)%nat ->
  trace (robustness_analysis a) = []
  /\ outcome (robustness_analysis a)
     = inl (ValueError "`input_data` must be at least 2D.").
Proof.
  intros Hlt. unfold robustness_analysis.
  destruct (Nat.ltb_spec (ndim (input_data a)) 2) as [_|Hge]; [|lia].
  split; reflexivity.
Qed.

Lemma run_calls (a : ra_args) (r : gmap string value) (c : callee) :
  outcome (robustness_analysis a) = inr r -> c <> filter_butterworth_ ->
  calls c (trace (robustness_analysis a))
  = calls c ([generate_probabilities_; prediction_statistics_;
              plot_prediction_probabilities_; interpolate_probabilities_;
              plot_signal_; apply_probability_threshold_;
              get_continuous_events_; apply_duration_threshold_;
              plot_signal_; print_; print_; classify_events_]
             ++ metric_calls (effective (options_to_include a))).
Proof.
  intros Hrun Hc.
  destruct (run_inv a r Hrun) as (_ & (ts & Hts & ->) & _).
  rewrite !calls_app, (calls_filter_only c ts Hc Hts).
  change [generate_probabilities_; prediction_statistics_;
          plot_prediction_probabilities_; interpolate_probabilities_;
          plot_signal_; apply_probability_threshold_;
          get_continuous_events_; apply_duration_threshold_;
          plot_signal_; print_; print_; classify_events_]
    with ([generate_probabilities_; prediction_statistics_;
           plot_prediction_probabilities_; interpolate_probabilities_]
          ++ [plot_signal_; apply_probability_threshold_;
              get_continuous_events_; apply_duration_threshold_;
              plot_signal_; print_; print_; classify_events_]).
  rewrite !calls_app. lia.
Qed.

(** C5, as amended. In a call that returns, a field is in the bundle exactly
    when its key is in the allow-list in force (the supplied list, or the
    default list when none or an empty one is supplied); the classification
    is computed once whatever that list is, and each trust metric is computed
    once under ["trust_metrics"] and not at all without it. *)
Theorem bundle_follows_allow_list_in_force (a : ra_args)
    (r : gmap string value) :
  outcome (robustness_analysis a) = inr r ->
  (forall f : string,
      is_Some (r !! f)
      <-> populated (effective (options_to_include a)) f = true)
  /\ calls classify_events_ (trace (robustness_analysis a)) = 1%nat
  /\ (forall c : callee,
        In c [detection_ratio_; reliability_; erer_] ->
        calls c (trace (robustness_analysis a))
        = if contains "trust_metrics" (effective (options_to_include a))
          then 1%nat else 0%nat).
Proof.
  intros Hrun. split; [exact (proj2 (proj2 (run_inv a r Hrun)))|].
  split.
  - rewrite (run_calls a r _ Hrun) by discriminate.
    unfold metric_calls. now destruct (contains _ _).
  - intros c Hc.
    rewrite (run_calls a r c Hrun)
      by (intros ->; simpl in Hc; intuition discriminate).
    unfold metric_calls.
    destruct (contains _ _); simpl in Hc;
      destruct Hc as [<-|[<-|[<-|[]]]]; reflexivity.
Qed.

(** C9. No allow-list and the empty allow-list run the same computation (same
    calls, same outcome): the default list is in force. Such a call, when it
    returns, returns a bundle that is not empty (it holds the input echo) and
    that has no ["pred_stats"] field, although a list that names
    ["pred_stats"] does get that field. *)
Theorem empty_allow_list_is_default (a : ra_args) :
  robustness_analysis (with_options a None)
  = robustness_analysis (with_options a (Some []))
  /\ (forall r : gmap string value,
        outcome (robustness_analysis (with_options a (Some []))) = inr r ->
        r <> ∅ /\ is_Some (r !! "transformed_data"%string)
        /\ r !! "pred_stats"%string = None)
  /\ (forall (l : list string) (r : gmap string value),
        contains "pred_stats" l = true ->
        outcome (robustness_analysis (with_options a (Some l))) = inr r ->
        is_Some (r !! "pred_stats"%string)).
Proof.
  split; [reflexivity|]. split.
  - intros r Hrun.
    destruct (run_inv _ r Hrun) as (_ & _ & Hfields).
    assert (Hecho : is_Some (r !! "transformed_data"%string))
      by (apply Hfields; reflexivity).
    split; [|split; [exact Hecho|]].
    + intros ->. rewrite lookup_empty in Hecho. now destruct Hecho.
    + destruct (r !! "pred_stats"%string) eqn:Hstats; [|reflexivity].
      assert (Hsome : is_Some (r !! "pred_stats"%string)) by (rewrite Hstats; eauto).
      apply Hfields in Hsome. discriminate Hsome.
  - intros l r Hl Hrun.
    destruct (run_inv _ r Hrun) as (_ & _ & Hfields).
    apply Hfields. simpl.
    destruct l as [|k l]; [discriminate Hl|].
    unfold populated, effective, or_default. simpl.
    simpl in Hl. rewrite Hl. reflexivity.
Qed.

Lemma contains_cons_ne (k k' : string) (l : list string) :
  k <> k' -> contains k (k' :: l) = contains k l.
Proof.
  intros Hne. unfold contains. simpl.
  now rewrite (proj2 (String.eqb_neq k k') Hne).
Qed.

Lemma store_if_cons_ne (k' : string) (l : list string) (key fld : string)
    (v : value) (m : gmap string value) :
  key <> k' -> store_if (k' :: l) key fld v m = store_if l key fld v m.
Proof. intros Hne. unfold store_if. now rewrite contains_cons_ne. Qed.

Lemma store_if_head (k : string) (l : list string) (fld : string)
    (v : value) (m : gmap string value) :
  store_if (k :: l) k fld v m = <[fld := v]> m.
Proof.
  unfold store_if, contains. cbn [existsb]. now rewrite String.eqb_refl.
Qed.

Lemma store_if_absent (l : list string) (key fld : string) (v : value)
    (m : gmap string value) :
  contains key l = false -> store_if l key fld v m = m.
Proof. intros Hkey. unfold store_if. now rewrite Hkey. Qed.

Lemma delete_store_if_ne (k : string) (opts : list string)
    (key fld : string) (v : value) (m : gmap string value) :
  fld <> k ->
  delete k (store_if opts key fld v m) = store_if opts key fld v (delete k m).
Proof.
  intros Hne. unfold store_if.
  destruct (contains key opts); [|reflexivity].
  apply delete_insert_ne. congruence.
Qed.

Ltac frame_step :=
  match goal with
  | |- context [bind ?m ?k] =>
      let t := fresh "t" in
      let e := fresh "e" in
      let x := fresh "x" in
      destruct m as [t [e|x]];
      [ rewrite !bind_raised; split; reflexivity
      | rewrite !bind_returned; cbn [outcome trace fst snd];
        cbv beta zeta ]
  end.

Ltac push_delete :=
  repeat first
    [ rewrite delete_store_if_ne by congruence
    | rewrite delete_insert_ne by congruence ].

(** Leaving ["figures"] out of the allow-list changes neither the calls made
    nor the exception raised, and takes exactly the ["figures"] field out of
    the bundle. *)
Lemma figures_frame (a : ra_args) (l : list string) :
  l <> [] -> contains "figures" l = false ->
  trace (robustness_analysis (with_options a (Some l)))
  = trace (robustness_analysis (with_options a (Some ("figures"%string :: l))))
  /\ outcome (robustness_analysis (with_options a (Some l)))
     = map_result (delete "figures"%string)
         (outcome (robustness_analysis
                     (with_options a (Some ("figures"%string :: l))))).
Proof.
  intros Hl Hfig. unfold robustness_analysis.
  cbn [with_options model input_data class_names sr ws overlap_percentage
       ground_truths cutoff repeats metrics interp_choice prob_th dur_th
       iou_th figsize x_axis options_to_include].
  replace (or_default (Some l) _OPTIONS) with l
    by (destruct l; [contradiction | reflexivity]).
  cbn [or_default].
  destruct (ndim (input_data a) <? 2)%nat; [split; reflexivity|].
  rewrite (contains_cons_ne "trust_metrics" "figures") by discriminate.
  do 13 frame_step.
  match goal with
  | |- context [let '(_, _) := ?icsd in _] =>
      destruct icsd as [[[insertions corrects] substitutions] deletions]
  end.
  destruct (contains "trust_metrics" l).
  - do 3 frame_step.
    unfold ret; cbn [trace outcome fst snd map_result].
    split; [reflexivity|]. f_equal.
    rewrite !(store_if_cons_ne "figures") by discriminate.
    rewrite store_if_head, (store_if_absent l "figures") by exact Hfig.
    push_delete. rewrite delete_insert_eq. push_delete.
    now rewrite delete_empty.
  - unfold ret; cbn [trace outcome fst snd map_result].
    split; [reflexivity|]. f_equal.
    rewrite !(store_if_cons_ne "figures") by discriminate.
    rewrite store_if_head, (store_if_absent l "figures") by exact Hfig.
    push_delete. rewrite delete_insert_eq. push_delete.
    now rewrite delete_empty.
Qed.

(** Every call that returns has plotted three times, and holds the figures
    exactly under ["figures"]. *)
Lemma plots_counted (a : ra_args) (r : gmap string value) :
  outcome (robustness_analysis a) = inr r ->
  calls plot_prediction_probabilities_ (trace (robustness_analysis a)) = 1%nat
  /\ calls plot_signal_ (trace (robustness_analysis a)) = 2%nat
  /\ (is_Some (r !! "figures"%string)
      <-> contains "figures" (effective (options_to_include a)) = true).
Proof.
  intros Hrun. split; [|split].
  - rewrite (run_calls a r _ Hrun) by discriminate.
    unfold metric_calls. now destruct (contains _ _).
  - rewrite (run_calls a r _ Hrun) by discriminate.
    unfold metric_calls. now destruct (contains _ _).
  - rewrite (proj2 (proj2 (run_inv a r Hrun)) "figures"%string).
    unfold populated. simpl. now rewrite orb_false_r.
Qed.

(** C10. The three plots (one [plot_prediction_probabilities], two
    [plot_signal]) are made in every call that returns, whatever the
    allow-list; leaving ["figures"] out only takes the ["figures"] field out
    of the bundle: the calls made, plotting included, and the exception
    raised if any stay the same. *)
Theorem plotting_is_unconditional (a : ra_args) :
  (forall r : gmap string value,
      outcome (robustness_analysis a) = inr r ->
      calls plot_prediction_probabilities_ (trace (robustness_analysis a))
      = 1%nat
      /\ calls plot_signal_ (trace (robustness_analysis a)) = 2%nat
      /\ (is_Some (r !! "figures"%string)
          <-> contains "figures" (effective (options_to_include a)) = true))
  /\ (forall l : list string,
        l <> [] -> contains "figures" l = false ->
        trace (robustness_analysis (with_options a (Some l)))
        = trace (robustness_analysis
                   (with_options a (Some ("figures"%string :: l))))
        /\ outcome (robustness_analysis (with_options a (Some l)))
           = map_result (delete "figures"%string)
               (outcome (robustness_analysis
                           (with_options a (Some ("figures"%string :: l)))))).
Proof.
  split; [intros r; apply plots_counted | intros l; apply figures_frame].
Qed.

(** *** The smoothing stage *)

Lemma mapM_filter_returns (n : nat) (sr : Z) (cutoff : Q)
    (l : list ndarray) :
  (forall (x : ndarray) (fs : Z) (kind : string) (cut : Q) (order : Z),
      ndim x = 1%nat ->
      exists y, filter_butterworth x fs kind cut order = inr y
                /\ shape y = shape x) ->
  Forall (fun x => shape x = [n]) l ->
  exists ys : list ndarray,
    outcome (mapM (fun cls_probas =>
                     invoke filter_butterworth_
                       (filter_butterworth cls_probas sr "lowpass" cutoff 3))
                  l) = inr ys
    /\ length ys = length l /\ Forall (fun y => shape y = [n]) ys.
Proof.
  intros Hfilter. induction 1 as [|x l Hx _ IH]; simpl.
  - exists []. repeat split. constructor.
  - destruct (Hfilter x sr "lowpass"%string cutoff 3%Z) as (y & Hy & Hsh).
    { unfold ndim. now rewrite Hx. }
    destruct IH as (ys & Hys & Hlen & Hall).
    exists (y :: ys). unfold invoke. rewrite Hy, bind_returned.
    destruct (mapM _ l) as [t [e|ys']]; simpl in Hys; [discriminate|].
    injection Hys as ->. rewrite bind_returned. simpl.
    repeat split; [now rewrite Hlen|].
    constructor; [congruence | exact Hall].
Qed.

Lemma array_stacks (sh : list nat) (ys : list ndarray) :
  ys <> [] -> Forall (fun y => shape y = sh) ys ->
  exists s, array ys = inr s /\ shape s = length ys :: sh.
Proof.
  intros Hne Hall. destruct ys as [|y ys]; [contradiction|].
  unfold array.
  assert (Hsame : forallb (fun z => shape_eqb (shape z) (shape y)) (y :: ys)
                  = true).
  { apply forallb_forall. intros z Hz.
    rewrite List.Forall_forall in Hall.
    unfold shape_eqb. apply bool_decide_eq_true.
    rewrite (Hall z Hz). symmetry. apply Hall. now left. }
  rewrite Hsame. eexists. split; [reflexivity|]. simpl.
  rewrite List.Forall_forall in Hall. now rewrite (Hall y (or_introl eq_refl)).
Qed.

(** C8. For a curve of [n] samples and [c] class channels ([c] at least 1,
    as the class axis of a probability curve is), if the low-pass filter
    returns, for every one-dimensional signal, a signal of the same length,
    then the smoothing stage returns a curve of [n] samples and [c] class
    channels again. *)
Theorem smoothing_preserves_shape (curve : ndarray) (n c : nat) (sr : Z)
    (cutoff : Q) :
  shape curve = [n; c] -> (1 <= c)%nat ->
  (forall (x : ndarray) (fs : Z) (kind : string) (cut : Q) (order : Z),
      ndim x = 1%nat ->
      exists y, filter_butterworth x fs kind cut order = inr y
                /\ shape y = shape x) ->
  exists smoothed : ndarray,
    outcome (smooth curve sr cutoff) = inr smoothed
    /\ shape smoothed = [n; c].
Proof.
  intros Hshape Hc Hfilter. unfold smooth, lift, iter.
  cbn [T shape]. rewrite Hshape. cbn [rev app].
  rewrite bind_returned. cbn [outcome trace snd fst].
  set (channels := List.map _ (seq 0 c)).
  assert (Hchannels : Forall (fun x => shape x = [n]) channels).
  { apply List.Forall_forall. intros x Hx. subst channels.
    apply in_map_iff in Hx as (i & <- & _). reflexivity. }
  assert (Hcount : length channels = c).
  { subst channels. now rewrite length_map, length_seq. }
  destruct (mapM_filter_returns n sr cutoff channels Hfilter Hchannels)
    as (ys & Hys & Hlen & Hall).
  destruct (mapM _ channels) as [t [e|ys']]; simpl in Hys; [discriminate|].
  injection Hys as ->. rewrite bind_returned. cbn [outcome trace snd fst].
  destruct (array_stacks [n] ys) as (s & Hs & Hsh); [|exact Hall|].
  { intros ->. simpl in Hlen. lia. }
  rewrite Hs, bind_returned. unfold ret. cbn [outcome trace snd fst].
  eexists. split; [reflexivity|].
  cbn [T shape]. rewrite Hsh, Hlen, Hcount. reflexivity.
Qed.

(** Without a class channel the stage does not keep the shape: the empty
    list of filtered channels is turned into an empty one-dimensional
    array. *)
Lemma smoothing_without_channels (curve : ndarray) (n : nat) (sr : Z)
    (cutoff : Q) :
  shape curve = [n; 0%nat] ->
  exists smoothed : ndarray,
    outcome (smooth curve sr cutoff) = inr smoothed
    /\ shape smoothed = [0%nat].
Proof.
  intros Hshape. unfold smooth, lift, iter.
  cbn [T shape]. rewrite Hshape. simpl.
  eexists. split; reflexivity.
Qed.

(** *** The batch variants *)

(** The call that both batch variants make names parameters that
    [robustness_analysis] does not have. *)
Lemma instance_call_rejected (c : batch_config) (x : ndarray)
    (gt : list Event) (o : option (list string)) :
  call_robustness_analysis (instance_call c x gt o)
  = raise unexpected_sample_rate.
Proof. reflexivity. Qed.

Ltac raise_step :=
  match goal with
  | |- context [bind ?m ?k] =>
      let t := fresh "t" in
      let e := fresh "e" in
      let x := fresh "x" in
      destruct m as [t [e|x]];
      [ rewrite !bind_raised; cbn [outcome snd]; eexists; reflexivity
      | rewrite !bind_returned; cbn [outcome snd]; cbv beta zeta ]
  end.

(** C6, on the code as it is. As soon as there is one instance to evaluate,
    neither batch variant returns a mapping: the call of
    [robustness_analysis] for the first instance is rejected with a
    [TypeError] before the single-instance analysis starts, and
    [robustness_analysis_many] raises exactly that error when [X] has a first
    element. *)
Theorem batch_variants_raise (c : batch_config) (X : list ndarray)
    (pipeline : Pipeline) (dataset : Dataset) (filename : string)
    (gt : list Event) (rest : list (string * list Event)) :
  get_gt_events_from_dict (b_events c) (b_class_names c) (b_sample_rate c)
  = inr ((filename, gt) :: rest) ->
  (exists e, outcome (robustness_analysis_many c X) = inl e)
  /\ (X <> [] ->
      robustness_analysis_many c X
      = ([get_gt_events_from_dict_], inl unexpected_sample_rate))
  /\ (exists e, outcome (robustness_analysis_batch pipeline c dataset) = inl e).
Proof.
  intros Hgt. split; [|split].
  - unfold robustness_analysis_many, invoke. rewrite Hgt, bind_returned.
    cbn [many_loop outcome snd]. raise_step.
    rewrite instance_call_rejected. unfold raise. rewrite bind_raised.
    eexists; reflexivity.
  - intros HX. destruct X as [|x X]; [contradiction|].
    unfold robustness_analysis_many, invoke. rewrite Hgt, bind_returned.
    cbn [many_loop]. unfold lift, getitem. simpl. reflexivity.
  - unfold robustness_analysis_batch, invoke. rewrite Hgt, bind_returned.
    cbn [batch_loop outcome snd]. do 5 raise_step.
    rewrite instance_call_rejected. unfold raise. rewrite bind_raised.
    eexists; reflexivity.
Qed.

End Orchestrator.

Lemma too_few_axes_rejected_witness :
  (ndim (input_data (args signal None)) < 2)%nat
  /\ trace (@robustness_analysis externals (args signal None)) = []
  /\ outcome (@robustness_analysis externals (args signal None))
     = inl (ValueError "`input_data` must be at least 2D.").
Proof.
  split; [vm_compute; lia|].
  apply (@too_few_axes_rejected externals (args signal None)).
  vm_compute; lia.
Defined.

Lemma bundle_follows_allow_list_in_force_witness :
  exists r : gmap string value,
    outcome (@robustness_analysis externals
               (args curve (Some ["ICSD"%string]))) = inr r
    /\ (forall f : string,
          is_Some (r !! f) <-> populated ["ICSD"%string] f = true)
    /\ calls classify_events_
         (trace (@robustness_analysis externals
                   (args curve (Some ["ICSD"%string])))) = 1%nat
    /\ (forall c : callee,
          In c [detection_ratio_; reliability_; erer_] ->
          calls c (trace (@robustness_analysis externals
                            (args curve (Some ["ICSD"%string])))) = 0%nat).
Proof.
  eexists. split; [reflexivity|].
  apply (@bundle_follows_allow_list_in_force externals
           (args curve (Some ["ICSD"%string]))).
  reflexivity.
Defined.

(** C5 as worded fails twice: under the allow-list [["ICSD"]] the call
    returns without having computed any trust metric, and under the empty
    allow-list it returns a bundle with fields that nobody asked for. *)
Lemma allow_list_claim_counterexample :
  ~ @allow_list_claim externals (args curve (Some ["ICSD"%string]))
  /\ ~ @allow_list_claim externals (args curve (Some [])).
Proof.
  split.
  - intros [_ Hmetrics].
    assert (Hrun : exists r, outcome (@robustness_analysis externals
                               (args curve (Some ["ICSD"%string]))) = inr r)
      by (eexists; reflexivity).
    destruct Hrun as [r Hrun].
    specialize (Hmetrics r detection_ratio_ Hrun
                  (or_intror (or_introl eq_refl))).
    vm_compute in Hmetrics. lia.
  - intros [Hfields _].
    assert (Hrun : exists r, outcome (@robustness_analysis externals
                               (args curve (Some []))) = inr r)
      by (eexists; reflexivity).
    destruct Hrun as [r Hrun].
    destruct (Hfields r "transformed_data"%string Hrun)
      as (key & _ & Hkey).
    + apply (proj2 (proj2 (run_inv _ r Hrun))). reflexivity.
    + exact Hkey.
Qed.

Lemma empty_allow_list_is_default_witness :
  exists r : gmap string value,
    outcome (@robustness_analysis externals
               (with_options (args curve None) (Some []))) = inr r
    /\ r <> ∅ /\ is_Some (r !! "transformed_data"%string)
    /\ r !! "pred_stats"%string = None.
Proof.
  eexists. split; [reflexivity|].
  apply (proj1 (proj2 (@empty_allow_list_is_default externals
                         (args curve None)))).
  reflexivity.
Defined.

Lemma plotting_is_unconditional_witness :
  exists r : gmap string value,
    outcome (@robustness_analysis externals
               (args curve (Some ["ICSD"%string]))) = inr r
    /\ calls plot_prediction_probabilities_
         (trace (@robustness_analysis externals
                   (args curve (Some ["ICSD"%string])))) = 1%nat
    /\ calls plot_signal_
         (trace (@robustness_analysis externals
                   (args curve (Some ["ICSD"%string])))) = 2%nat
    /\ (is_Some (r !! "figures"%string)
        <-> contains "figures" ["ICSD"%string] = true).
Proof.
  eexists. split; [reflexivity|].
  apply (proj1 (@plotting_is_unconditional externals
                  (args curve (Some ["ICSD"%string])))).
  reflexivity.
Defined.

Lemma smoothing_preserves_shape_witness :
  shape curve = [4; 2]%nat /\ (1 <= 2)%nat
  /\ exists smoothed : ndarray,
       outcome (@smooth externals curve 1 0.25%Q) = inr smoothed
       /\ shape smoothed = [4; 2]%nat.
Proof.
  split; [reflexivity | split; [lia|]].
  apply (@smoothing_preserves_shape externals curve 4 2 1 0.25%Q);
    [reflexivity | lia |].
  intros x fs kind cut order _. exists x. split; reflexivity.
Defined.

Lemma batch_variants_raise_witness :
  (exists e, outcome (@robustness_analysis_many externals (config None)
                        [curve]) = inl e)
  /\ ([curve] <> [] ->
      @robustness_analysis_many externals (config None) [curve]
      = ([get_gt_events_from_dict_], inl unexpected_sample_rate))
  /\ (exists e, outcome (@robustness_analysis_batch externals tt
                           (config None) [(curve, LInt 0)]) = inl e).
Proof.
  apply (@batch_variants_raise externals (config None) [curve] tt
           [(curve, LInt 0)] "a.csv"%string ground_truth []).
  reflexivity.
Defined.

End OrchestratorFacts.

(** * Further properties *)

(** ** More on the orchestrator: data flow, failures, the smoothing stage *)

Module OrchestratorExtras.

Import Py Evaluation RunSpec StageSpec RunFacts Sample.
Open Scope py_scope.

Section Orchestrator.

Context {E : Externals}.

Ltac returned_step :=
  match goal with
  | |- context [bind ?m ?k] =>
      let t := fresh "t" in
      let e := fresh "e" in
      let x := fresh "x" in
      let Hm := fresh "Hm" in
      destruct m as [t [e|x]] eqn:Hm;
      [ rewrite !bind_raised; cbn [outcome trace fst snd];
        try (intros Hraised; discriminate Hraised)
      | rewrite !bind_returned; cbn [outcome trace fst snd];
        cbv beta zeta ]
  end.

Ltac stage H :=
  let Ht := fresh "Ht" in
  unfold invoke, lift in H; injection H as Ht H; subst.

Ltac stages :=
  repeat match goal with
         | H : invoke _ _ = (_, _) |- _ => stage H
         | H : lift _ = (_, _) |- _ => stage H
         end.

Ltac field_value :=
  repeat first
    [ rewrite lookup_insert_eq
    | rewrite lookup_insert_ne by congruence
    | rewrite lookup_store_if_eq
    | rewrite lookup_store_if_ne by congruence
    | rewrite lookup_empty ];
  reflexivity.

(** The bundle of a call that returns holds the outputs of the stages, each
    stage having been fed the output of the one before it. *)
Lemma run_values (a : ra_args) (r : gmap string value) :
  outcome (robustness_analysis a) = inr r ->
  exists (probas : ndarray) (stats : gmap string ndarray)
         (mean interp smoothed th th' : ndarray) (pot : PotentialEvents)
         (events : list Event) (f1 f2 f3 : Figure) (I C S D : nat),
    let opts := effective (options_to_include a) in
    generate_probabilities (model a) (input_data a) (repeats a) = inr probas
    /\ prediction_statistics probas (metrics a) = inr stats
    /\ stats !! "mean_pred"%string = Some mean
    /\ plot_prediction_probabilities mean (sr a) (ws a) (overlap_percentage a)
         (class_names a) (figsize a) (x_axis a) (ground_truths a) = inr f1
    /\ interpolate_probabilities mean (sr a) (ws a) (overlap_percentage a)
         (interp_choice a) = inr interp
    /\ outcome (smooth interp (sr a) (cutoff a)) = inr smoothed
    /\ apply_probability_threshold smoothed (prob_th a) = inr th
    /\ get_continuous_events th = inr pot
    /\ apply_duration_threshold th pot (sr a) (dur_th a) = inr (th', events)
    /\ classify_events events (ground_truths a) (iou_th a) = inr (I, C, S, D)
    /\ r !! "transformed_data"%string
       = stored opts "transformed_data" (VArray (input_data a))
    /\ r !! "prediction_probas"%string
       = stored opts "prediction_probas" (VArray probas)
    /\ r !! "pred_stats"%string = stored opts "pred_stats" (VStats stats)
    /\ r !! "interpolated_probas"%string
       = stored opts "interpolated_probas" (VArray interp)
    /\ r !! "smoothed_probas"%string
       = stored opts "smoothed_probas" (VArray smoothed)
    /\ r !! "thresholded_probas"%string
       = stored opts "thresholded_probas" (VArray th')
    /\ r !! "figures"%string
       = stored opts "figures"
           (VFigures (<["thresh_probas_fig"%string := f3]>
                      (<["interp_probas_fig"%string := f2]>
                       (<["pred_probas_fig"%string := f1]> ∅))))
    /\ r !! "Insertions"%string = stored opts "ICSD" (VCount I)
    /\ r !! "corrects"%string = stored opts "ICSD" (VCount C)
    /\ r !! "substitutions"%string = stored opts "ICSD" (VCount S)
    /\ r !! "deletions"%string = stored opts "ICSD" (VCount D)
    /\ (contains "trust_metrics" opts = true ->
        exists dr rel er : metric,
          detection_ratio C D S = inr dr
          /\ reliability C I = inr rel
          /\ erer D I S C = inr er
          /\ r !! "DR"%string = Some (VMetric dr)
          /\ r !! "Reliability"%string = Some (VMetric rel)
          /\ r !! "ERER"%string = Some (VMetric er)).
Proof.
  unfold robustness_analysis, effective, stored.
  set (opts := or_default (options_to_include a) _OPTIONS).
  destruct (Nat.ltb_spec (ndim (input_data a)) 2) as [Hlt|Hge];
    [intros Hraised; discriminate Hraised|].
  do 13 returned_step.
  match goal with
  | H : invoke classify_events_ _ = (_, inr ?icsd) |- _ =>
      destruct icsd as [[[insertions corrects] substitutions] deletions]
  end.
  match goal with
  | H : invoke apply_duration_threshold_ _ = (_, inr ?p) |- _ =>
      destruct p as [th' events]
  end.
  match goal with
  | H : lift (match ?s !! ?k with _ => _ end) = _ |- _ =>
      destruct (s !! k) as [mean|] eqn:Hmean; [|stage H; discriminate]
  end.
  destruct (contains "trust_metrics" opts) eqn:Htm.
  - do 3 returned_step. stages.
    unfold ret; cbn [outcome trace fst snd]. intros [= <-].
    do 16 eexists. cbv zeta.
    do 5 (split; [eassumption|]).
    split; [rewrite Hm4; reflexivity|].
    do 4 (split; [eassumption|]).
    do 11 (split; [field_value|]).
    intros _. do 3 eexists.
    do 3 (split; [eassumption|]).
    repeat split; field_value.
  - stages.
    unfold ret; cbn [outcome trace fst snd]. intros [= <-].
    do 16 eexists. cbv zeta.
    do 5 (split; [eassumption|]).
    split; [rewrite Hm4; reflexivity|].
    do 4 (split; [eassumption|]).
    do 11 (split; [field_value|]).
    intros Habsurd. discriminate Habsurd.
Qed.

(** X1. In a bundle that holds both the counts and the trust metrics, the
    metrics are those of the stored counts: DR is the detection ratio of
    (corrects, deletions, substitutions), Reliability that of (corrects,
    insertions), ERER the error rate of (deletions, insertions,
    substitutions, corrects). *)
Theorem metrics_are_those_of_the_stored_counts (a : ra_args)
    (r : gmap string value) :
  outcome (robustness_analysis a) = inr r ->
  contains "ICSD" (effective (options_to_include a)) = true ->
  contains "trust_metrics" (effective (options_to_include a)) = true ->
  exists (I C S D : nat) (dr rel er : metric),
    r !! "Insertions"%string = Some (VCount I)
    /\ r !! "corrects"%string = Some (VCount C)
    /\ r !! "substitutions"%string = Some (VCount S)
    /\ r !! "deletions"%string = Some (VCount D)
    /\ r !! "DR"%string = Some (VMetric dr)
    /\ r !! "Reliability"%string = Some (VMetric rel)
    /\ r !! "ERER"%string = Some (VMetric er)
    /\ detection_ratio C D S = inr dr
    /\ reliability C I = inr rel
    /\ erer D I S C = inr er.
Proof.
  intros Hrun Hicsd Htm.
  destruct (run_values a r Hrun)
    as (probas & stats & mean & interp & smoothed & th & th' & pot & events
        & f1 & f2 & f3 & I & C & S & D & Hvalues).
  cbv zeta in Hvalues. unfold stored in Hvalues. rewrite Hicsd in Hvalues.
  destruct Hvalues as (_ & _ & _ & _ & _ & _ & _ & _ & _ & _ & _ & _ & _ & _
                       & _ & _ & _ & HI & HC & HS & HD & Hmetrics).
  destruct (Hmetrics Htm) as (dr & rel & er & Hdr & Hrel & Her & H1 & H2 & H3).
  exists I, C, S, D, dr, rel, er. repeat split; assumption.
Qed.

(** X2. The array fields of a bundle are chained stage outputs: the input
    echo is the input itself, the statistics are those of the stored
    probabilities, and the smoothed curve is the smoothing of the stored
    interpolated curve. *)
Theorem array_fields_are_chained (a : ra_args) (r : gmap string value) :
  outcome (robustness_analysis a) = inr r ->
  (forall v, r !! "transformed_data"%string = Some v ->
             v = VArray (input_data a))
  /\ (forall p, r !! "prediction_probas"%string = Some (VArray p) ->
        generate_probabilities (model a) (input_data a) (repeats a) = inr p)
  /\ (forall p s,
        r !! "prediction_probas"%string = Some (VArray p) ->
        r !! "pred_stats"%string = Some (VStats s) ->
        prediction_statistics p (metrics a) = inr s)
  /\ (forall c s,
        r !! "interpolated_probas"%string = Some (VArray c) ->
        r !! "smoothed_probas"%string = Some (VArray s) ->
        outcome (smooth c (sr a) (cutoff a)) = inr s).
Proof.
  intros Hrun.
  destruct (run_values a r Hrun)
    as (probas & stats & mean & interp & smoothed & th & th' & pot & events
        & f1 & f2 & f3 & I & C & S & D & Hvalues).
  cbv zeta in Hvalues. unfold stored in Hvalues.
  destruct Hvalues as (Hgen & Hstats & _ & _ & _ & Hsmooth & _ & _ & _ & _
                       & Hecho & Hp & Hs & Hi & Hsm & _).
  split; [|split; [|split]].
  - intros v Hv. rewrite Hecho in Hv.
    destruct (contains "transformed_data" _); congruence.
  - intros p Hv. rewrite Hp in Hv.
    destruct (contains "prediction_probas" _); [|discriminate].
    injection Hv as <-. exact Hgen.
  - intros p s Hv Hw. rewrite Hp in Hv. rewrite Hs in Hw.
    destruct (contains "prediction_probas" _); [|discriminate].
    destruct (contains "pred_stats" _); [|discriminate].
    injection Hv as <-. injection Hw as <-. exact Hstats.
  - intros c s Hv Hw. rewrite Hi in Hv. rewrite Hsm in Hw.
    destruct (contains "interpolated_probas" _); [|discriminate].
    destruct (contains "smoothed_probas" _); [|discriminate].
    injection Hv as <-. injection Hw as <-. exact Hsmooth.
Qed.


(** X3. The keys ["predicted_events"] and ["non_overlapping_probas"] of the
    default list govern no field: an allow-list that names none of the
    other keys gets the empty bundle back, although every stage ran. *)
Theorem inert_keys_give_empty_bundle (a : ra_args) (l : list string)
    (r : gmap string value) :
  l <> [] ->
  (forall k, In k l ->
             k = "predicted_events"%string
             \/ k = "non_overlapping_probas"%string) ->
  outcome (robustness_analysis (with_options a (Some l))) = inr r ->
  r = ∅
  /\ calls classify_events_
       (trace (robustness_analysis (with_options a (Some l)))) = 1%nat.
Proof.
  intros Hl Hkeys Hrun.
  destruct (run_inv _ r Hrun) as (_ & (ts & Hts & Htrace) & Hfields).
  assert (Heff : effective (options_to_include (with_options a (Some l))) = l).
  { destruct l; [contradiction | reflexivity]. }
  rewrite Heff in Hfields, Htrace.
  assert (Hnone : forall k, (k <> "predicted_events" ->
                             k <> "non_overlapping_probas" ->
                             contains k l = false)%string).
  { intros k Hk1 Hk2. unfold contains.
    destruct (existsb (String.eqb k) l) eqn:Hex; [|reflexivity].
    apply existsb_exists in Hex as (k' & Hin & Heq).
    apply String.eqb_eq in Heq. subst k'.
    destruct (Hkeys k Hin); contradiction. }
  split.
  - apply map_eq. intros f. rewrite lookup_empty.
    destruct (r !! f) eqn:Hf; [|reflexivity].
    assert (Hsome : is_Some (r !! f)) by (rewrite Hf; eauto).
    apply Hfields in Hsome. unfold populated, field_keys in Hsome.
    cbn [existsb fst snd] in Hsome.
    rewrite !Hnone in Hsome by discriminate.
    rewrite !andb_false_r in Hsome. discriminate Hsome.
  - rewrite Htrace, !calls_app, (calls_filter_only _ ts) by
      (discriminate || assumption).
    unfold metric_calls. rewrite Hnone by discriminate. reflexivity.
Qed.

(** X4. When the statistics have no ["mean_pred"] entry the call raises
    [KeyError] right after the statistics were computed: nothing has been
    plotted and no later stage has run. *)
Theorem missing_mean_pred_is_key_error (a : ra_args) (probas : ndarray)
    (stats : gmap string ndarray) :
  (2 <= ndim (input_data a))%nat ->
  generate_probabilities (model a) (input_data a) (repeats a) = inr probas ->
  prediction_statistics probas (metrics a) = inr stats ->
  stats !! "mean_pred"%string = None ->
  robustness_analysis a
  = ([generate_probabilities_; prediction_statistics_],
     inl (KeyError "mean_pred")).
Proof.
  intros Hdim Hgen Hstats Hmean. unfold robustness_analysis.
  destruct (Nat.ltb_spec (ndim (input_data a)) 2) as [Hlt|_]; [lia|].
  unfold invoke, lift. rewrite Hgen, bind_returned. cbv beta zeta.
  rewrite Hstats, !bind_returned. cbv beta zeta.
  rewrite Hmean, !bind_raised. reflexivity.
Qed.

(** *** The smoothing stage, channel by channel *)

Lemma lookup_map_seq {A : Type} (f : nat -> A) (c : nat) :
  forall s j : nat, (j < c)%nat ->
    List.map f (seq s c) !! j = Some (f (s + j)%nat).
Proof.
  induction c as [|c IH]; intros s j Hj; [lia|].
  destruct j as [|j]; simpl.
  - now rewrite Nat.add_0_r.
  - rewrite IH by lia. f_equal. f_equal. lia.
Qed.

Lemma iter_transposed (curve : ndarray) (n c : nat) :
  shape curve = [n; c] ->
  iter (T curve) = inr (List.map (channel curve n) (seq 0 c)).
Proof. intros Hshape. unfold iter. cbn [T shape]. now rewrite Hshape. Qed.

Lemma mapM_filter_inv (sr : Z) (cutoff : Q) (l : list ndarray) :
  forall ys : list ndarray,
    outcome (mapM (filter_channel sr cutoff) l) = inr ys ->
    Forall2 (fun x y => filter_butterworth x sr "lowpass" cutoff 3 = inr y)
            l ys
    /\ calls filter_butterworth_ (trace (mapM (filter_channel sr cutoff) l))
       = length l.
Proof.
  induction l as [|x l IH]; intros ys; simpl.
  - intros [= <-]. split; [constructor | reflexivity].
  - unfold filter_channel at 1 3, invoke.
    destruct (filter_butterworth x sr "lowpass" cutoff 3) as [e|y] eqn:Hy;
      [rewrite !bind_raised; intros Hraised; discriminate Hraised|].
    rewrite !bind_returned. cbn [outcome trace fst snd].
    destruct (mapM (filter_channel sr cutoff) l) as [t [e|ys']] eqn:Hrest;
      [rewrite !bind_raised; intros Hraised; discriminate Hraised|].
    rewrite !bind_returned. cbn [outcome trace fst snd ret].
    intros [= <-].
    destruct (IH ys' eq_refl) as [Hall Hcalls].
    split; [constructor; assumption|].
    rewrite app_nil_r. cbn [trace fst] in Hcalls.
    now rewrite calls_app, Hcalls.
Qed.

Lemma mapM_filter_fails (sr : Z) (cutoff : Q) (e : exn) (x : ndarray)
    (after : list ndarray) (before : list ndarray) :
  Forall (fun z => exists y,
            filter_butterworth z sr "lowpass" cutoff 3 = inr y) before ->
  filter_butterworth x sr "lowpass" cutoff 3 = inl e ->
  outcome (mapM (filter_channel sr cutoff) (before ++ x :: after)) = inl e
  /\ calls filter_butterworth_
       (trace (mapM (filter_channel sr cutoff) (before ++ x :: after)))
     = S (length before).
Proof.
  intros Hbefore Hx. induction Hbefore as [|z before [y Hz] _ IH]; simpl.
  - unfold filter_channel at 1 3, invoke. rewrite Hx, !bind_raised.
    split; reflexivity.
  - unfold filter_channel at 1 3, invoke. rewrite Hz, !bind_returned.
    cbn [outcome trace fst snd].
    destruct (mapM (filter_channel sr cutoff) (before ++ x :: after))
      as [t [e'|ys]]; destruct IH as [Hout Hcalls];
      [|discriminate Hout].
    rewrite !bind_raised. cbn [outcome trace fst snd] in *.
    split; [exact Hout|].
    now rewrite calls_app, Hcalls.
Qed.

Lemma smooth_unfolded (curve : ndarray) (n c : nat) (sr : Z) (cutoff : Q) :
  shape curve = [n; c] ->
  smooth curve sr cutoff
  = bind (mapM (filter_channel sr cutoff)
            (List.map (channel curve n) (seq 0 c)))
      (fun filtered =>
         bind (lift (array filtered)) (fun stacked => ret (T stacked))).
Proof.
  intros Hshape. unfold smooth.
  rewrite (iter_transposed curve n c Hshape).
  unfold lift at 1. rewrite bind_returned. cbn [app].
  change (fun cls_probas : ndarray =>
            invoke filter_butterworth_
              (filter_butterworth cls_probas sr "lowpass" cutoff 3))
    with (filter_channel sr cutoff).
  now destruct (bind _ _).
Qed.

(** X5. The smoothing stage filters every class channel exactly once: when it
    returns, the filter has been called as many times as the curve has class
    channels. *)
Theorem filter_called_once_per_channel (curve smoothed : ndarray)
    (n c : nat) (sr : Z) (cutoff : Q) :
  shape curve = [n; c] ->
  outcome (smooth curve sr cutoff) = inr smoothed ->
  calls filter_butterworth_ (trace (smooth curve sr cutoff)) = c.
Proof.
  intros Hshape. rewrite (smooth_unfolded curve n c sr cutoff Hshape).
  destruct (mapM _ _) as [t [e|ys]] eqn:Hm;
    [rewrite bind_raised; intros Hraised; discriminate Hraised|].
  destruct (mapM_filter_inv sr cutoff _ ys
              (eq_trans (f_equal outcome Hm) eq_refl)) as [_ Hcalls].
  rewrite Hm in Hcalls. cbn [trace fst] in Hcalls.
  rewrite length_map, length_seq in Hcalls.
  rewrite bind_returned. cbn [outcome trace fst snd]. unfold lift.
  destruct (array ys) as [e|stacked];
    [rewrite bind_raised; intros Hraised; discriminate Hraised|].
  rewrite bind_returned. intros _. cbn [trace fst ret].
  rewrite !calls_app, Hcalls. cbn. lia.
Qed.

(** X6. Smoothing works channel by channel: entry (i, j) of the smoothed
    curve is entry i of the filtered j-th channel, and the j-th channel holds
    the entries (i, j) of the curve. *)
Theorem smoothing_is_channelwise (curve smoothed : ndarray) (n c : nat)
    (sr : Z) (cutoff : Q) :
  shape curve = [n; c] ->
  outcome (smooth curve sr cutoff) = inr smoothed ->
  forall j : nat, (j < c)%nat ->
    exists y : ndarray,
      filter_butterworth (channel curve n j) sr "lowpass" cutoff 3 = inr y
      /\ (forall i : nat, get (channel curve n j) [i] = get curve [i; j])
      /\ (forall i : nat, get smoothed [i; j] = get y [i]).
Proof.
  intros Hshape. rewrite (smooth_unfolded curve n c sr cutoff Hshape).
  destruct (mapM _ _) as [t [e|ys]] eqn:Hm;
    [rewrite bind_raised; intros Hraised; discriminate Hraised|].
  destruct (mapM_filter_inv sr cutoff _ ys
              (eq_trans (f_equal outcome Hm) eq_refl)) as [Hall _].
  rewrite bind_returned. cbn [outcome trace fst snd]. unfold lift.
  destruct (array ys) as [e|stacked] eqn:Hstack;
    [rewrite bind_raised; intros Hraised; discriminate Hraised|].
  rewrite bind_returned. cbn [outcome snd ret]. intros [= <-] j Hj.
  pose proof (lookup_map_seq (channel curve n) c 0 j Hj) as Hchan.
  destruct (Forall2_lookup_l _ _ _ _ _ Hall Hchan) as (y & Hy & Hfiltered).
  exists y. split; [exact Hfiltered|]. split; [reflexivity|].
  intros i. unfold array in Hstack.
  destruct ys as [|y0 ys]; [discriminate Hy|].
  destruct (forallb _ _); [|discriminate Hstack].
  injection Hstack as <-. cbn [T get rev app]. now rewrite Hy.
Qed.

(** X7. A channel whose filtering raises stops the stage: the exception is
    the outcome, and the channels after it are not filtered. *)
Theorem smoothing_stops_at_first_failure (curve : ndarray) (n c j : nat)
    (sr : Z) (cutoff : Q) (e : exn) :
  shape curve = [n; c] -> (j < c)%nat ->
  (forall k : nat, (k < j)%nat ->
     exists y, filter_butterworth (channel curve n k) sr "lowpass" cutoff 3
               = inr y) ->
  filter_butterworth (channel curve n j) sr "lowpass" cutoff 3 = inl e ->
  outcome (smooth curve sr cutoff) = inl e
  /\ calls filter_butterworth_ (trace (smooth curve sr cutoff)) = S j.
Proof.
  intros Hshape Hj Hbefore Hfail.
  rewrite (smooth_unfolded curve n c sr cutoff Hshape).
  replace (seq 0 c) with (seq 0 j ++ j :: seq (S j) (c - S j)).
  2:{ change (j :: seq (S j) (c - S j)) with (seq (0 + j) (S (c - S j))).
      rewrite <- List.seq_app. f_equal. lia. }
  rewrite List.map_app. cbn [List.map].
  destruct (mapM_filter_fails sr cutoff e (channel curve n j)
              (List.map (channel curve n) (seq (S j) (c - S j)))
              (List.map (channel curve n) (seq 0 j))) as [Hout Hcalls].
  { apply List.Forall_forall. intros z Hz.
    apply in_map_iff in Hz as (k & <- & Hk). apply Hbefore.
    apply in_seq in Hk. lia. }
  { exact Hfail. }
  rewrite length_map, length_seq in Hcalls.
  destruct (mapM _ _) as [t [e'|ys]]; [|discriminate Hout].
  rewrite !bind_raised. cbn [outcome snd trace fst] in *.
  injection Hout as ->. split; [reflexivity | exact Hcalls].
Qed.

(** *** The batch variants at their edges *)

Lemma getitem_head {A : Type} (x : A) (l : list A) :
  getitem (x :: l) 0 = inr x.
Proof.
  unfold getitem. cbn [Z.ltb Z.compare Z.leb andb].
  destruct (Z.ltb_spec 0 (Z.of_nat (length (x :: l)))) as [_|Hlen];
    [reflexivity | simpl in Hlen; lia].
Qed.

Lemma getitem_nil {A : Type} (i : Z) :
  getitem (@nil A) i = inl index_error.
Proof.
  unfold getitem. cbv zeta. rewrite lookup_nil.
  now destruct (_ && _)%bool.
Qed.

Ltac step :=
  rewrite !bind_returned; cbn [outcome trace fst snd]; cbv beta.

(** X8. Without ground-truth files there is nothing to evaluate: both batch
    variants return the empty mapping after the one call that extracts the
    ground truths, whatever [X] or the dataset hold. *)
Theorem no_ground_truth_files_no_work (c : batch_config) (X : list ndarray)
    (pipeline : Pipeline) (dataset : Dataset) :
  get_gt_events_from_dict (b_events c) (b_class_names c) (b_sample_rate c)
  = inr [] ->
  robustness_analysis_many c X = ([get_gt_events_from_dict_], inr ∅)
  /\ robustness_analysis_batch pipeline c dataset
     = ([get_gt_events_from_dict_], inr ∅).
Proof.
  intros Hgt. unfold robustness_analysis_many, robustness_analysis_batch,
    invoke. rewrite Hgt, !bind_returned. split; reflexivity.
Qed.

(** X9. [robustness_analysis_many] pairs the ground-truth files with [X] by
    position: with a ground-truth file but an empty [X] it raises
    [IndexError], and no analysis is started. *)
Theorem fewer_inputs_than_files_is_index_error (c : batch_config)
    (filename : string) (gt : list Event)
    (rest : list (string * list Event)) :
  get_gt_events_from_dict (b_events c) (b_class_names c) (b_sample_rate c)
  = inr ((filename, gt) :: rest) ->
  robustness_analysis_many c []
  = ([get_gt_events_from_dict_], inl index_error).
Proof.
  intros Hgt. unfold robustness_analysis_many, invoke.
  rewrite Hgt, bind_returned. cbn [many_loop]. unfold lift.
  rewrite getitem_nil, !bind_raised. reflexivity.
Qed.

(** X10. In [robustness_analysis_batch] the rejected call comes last: when
    the collaborators return, the first instance has been sliced out,
    its pilot signal plotted (under ["figures"]) and the pipeline applied to
    it before the [TypeError] is raised. *)
Theorem batch_fails_after_preparing_the_instance (c : batch_config)
    (pipeline : Pipeline) (dataset inst : Dataset) (filename : string)
    (gt : list Event) (rest : list (string * list Event))
    (lbl0 : label) (lbls : list label) (lbl : string)
    (x0 : DataFrame) (xs : list DataFrame) (flat data : ndarray)
    (fig : Figure) :
  get_gt_events_from_dict (b_events c) (b_class_names c) (b_sample_rate c)
  = inr ((filename, gt) :: rest) ->
  dataset_getitem dataset 0 1 = inr inst ->
  dataset_y inst = lbl0 :: lbls ->
  match lbl0 with
  | LInt z => getitem (b_class_names c) z
  | LStr x => inr x
  end = inr lbl ->
  dataset_X inst = x0 :: xs ->
  values_flatten x0 = inr flat ->
  plot_signal flat (pilot_plot c lbl) = inr fig ->
  pipeline_transform pipeline inst = inr data ->
  robustness_analysis_batch pipeline c dataset
  = ([get_gt_events_from_dict_; dataset_getitem_]
     ++ (if contains "figures" (effective (b_options_to_include c))
         then [values_flatten_; plot_signal_] else [])
     ++ [pipeline_transform_],
     inl unexpected_sample_rate).
Proof.
  intros Hgt Hinst Hy Hlbl HX Hflat Hplot Hdata.
  unfold robustness_analysis_batch, invoke, effective.
  rewrite Hgt, bind_returned. cbn [batch_loop Nat.add].
  unfold invoke, lift. rewrite Hinst. repeat step.
  rewrite Hy, getitem_head. repeat step. rewrite Hlbl. repeat step.
  destruct (contains "figures" (or_default (b_options_to_include c) _OPTIONS)).
  - rewrite HX, getitem_head. repeat step. rewrite Hflat. repeat step.
    fold (pilot_plot c lbl). rewrite Hplot. repeat step.
    unfold set_figure. rewrite !lookup_empty. cbn [default].
    rewrite !lookup_empty. cbn [default]. repeat step.
    rewrite Hdata. repeat step.
    rewrite OrchestratorFacts.instance_call_rejected. reflexivity.
  - unfold ret. repeat step.
    rewrite Hdata. repeat step.
    rewrite OrchestratorFacts.instance_call_rejected. reflexivity.
Qed.

(** X11. A dataset instance without a label, or with an [int] label that is
    no position of [class_names], makes [robustness_analysis_batch] raise
    [IndexError] before anything is plotted or transformed. *)
Theorem batch_label_errors (c : batch_config) (pipeline : Pipeline)
    (dataset inst : Dataset) (filename : string) (gt : list Event)
    (rest : list (string * list Event)) :
  get_gt_events_from_dict (b_events c) (b_class_names c) (b_sample_rate c)
  = inr ((filename, gt) :: rest) ->
  dataset_getitem dataset 0 1 = inr inst ->
  (dataset_y inst = []
   \/ exists (z : Z) (lbls : list label),
        dataset_y inst = LInt z :: lbls
        /\ (z < - Z.of_nat (length (b_class_names c))
            \/ Z.of_nat (length (b_class_names c)) <= z)%Z) ->
  robustness_analysis_batch pipeline c dataset
  = ([get_gt_events_from_dict_; dataset_getitem_], inl index_error).
Proof.
  intros Hgt Hinst Hlabel.
  unfold robustness_analysis_batch, invoke.
  rewrite Hgt, bind_returned. cbn [batch_loop Nat.add].
  unfold invoke, lift. rewrite Hinst, !bind_returned. cbv beta.
  destruct Hlabel as [Hy | (z & lbls & Hy & Hz)]; rewrite Hy.
  - rewrite getitem_nil, !bind_raised. reflexivity.
  - rewrite getitem_head, !bind_returned. cbv beta.
    assert (Hout : getitem (b_class_names c) z = inl index_error).
    { unfold getitem.
      destruct (Z.ltb_spec z 0).
      - destruct (Z.leb_spec 0 (z + Z.of_nat (length (b_class_names c))));
          [lia | reflexivity].
      - destruct (Z.leb_spec 0 z); [|lia].
        destruct (Z.ltb_spec z (Z.of_nat (length (b_class_names c))));
          [lia | reflexivity]. }
    rewrite Hout, !bind_raised. reflexivity.
Qed.

End Orchestrator.

Import Scenarios.

Lemma metrics_are_those_of_the_stored_counts_witness :
  exists r : gmap string value,
    outcome (@robustness_analysis externals (args curve None)) = inr r
    /\ contains "ICSD" (effective None) = true
    /\ contains "trust_metrics" (effective None) = true
    /\ exists (I C S D : nat) (dr rel er : metric),
         r !! "Insertions"%string = Some (VCount I)
         /\ r !! "corrects"%string = Some (VCount C)
         /\ r !! "substitutions"%string = Some (VCount S)
         /\ r !! "deletions"%string = Some (VCount D)
         /\ r !! "DR"%string = Some (VMetric dr)
         /\ r !! "Reliability"%string = Some (VMetric rel)
         /\ r !! "ERER"%string = Some (VMetric er)
         /\ @detection_ratio externals C D S = inr dr
         /\ @reliability externals C I = inr rel
         /\ @erer externals D I S C = inr er.
Proof.
  eexists. split; [reflexivity|]. split; [reflexivity|].
  split; [reflexivity|].
  apply (@metrics_are_those_of_the_stored_counts externals (args curve None));
    reflexivity.
Defined.

Lemma array_fields_are_chained_witness :
  exists r : gmap string value,
    outcome (@robustness_analysis externals (args curve None)) = inr r
    /\ (forall v, r !! "transformed_data"%string = Some v ->
                  v = VArray curve)
    /\ (forall p, r !! "prediction_probas"%string = Some (VArray p) ->
          @generate_probabilities externals tt curve 5 = inr p)
    /\ (forall p s,
          r !! "prediction_probas"%string = Some (VArray p) ->
          r !! "pred_stats"%string = Some (VStats s) ->
          @prediction_statistics externals p "all" = inr s)
    /\ (forall c s,
          r !! "interpolated_probas"%string = Some (VArray c) ->
          r !! "smoothed_probas"%string = Some (VArray s) ->
          outcome (@smooth externals c 1 0.25%Q) = inr s).
Proof.
  eexists. split; [reflexivity|].
  apply (@array_fields_are_chained externals (args curve None)).
  reflexivity.
Defined.


Lemma inert_keys_give_empty_bundle_witness :
  exists r : gmap string value,
    outcome (@robustness_analysis externals
               (with_options (args curve None)
                  (Some ["predicted_events"%string]))) = inr r
    /\ r = ∅
    /\ calls classify_events_
         (trace (@robustness_analysis externals
                   (with_options (args curve None)
                      (Some ["predicted_events"%string])))) = 1%nat.
Proof.
  eexists. split; [reflexivity|].
  apply (@inert_keys_give_empty_bundle externals (args curve None)
           ["predicted_events"%string]).
  - discriminate.
  - intros k [<-|[]]. now left.
  - reflexivity.
Defined.

Lemma missing_mean_pred_is_key_error_witness :
  (2 <= ndim curve)%nat
  /\ @robustness_analysis without_mean
       (args_with std_only (fun x => inr x) curve None)
     = ([generate_probabilities_; prediction_statistics_],
        inl (KeyError "mean_pred")).
Proof.
  split; [vm_compute; lia|].
  eapply (@missing_mean_pred_is_key_error without_mean
            (args_with std_only (fun x => inr x) curve None)).
  - vm_compute; lia.
  - reflexivity.
  - reflexivity.
  - reflexivity.
Defined.

Lemma filter_called_once_per_channel_witness :
  exists smoothed : ndarray,
    shape curve = [4; 2]%nat
    /\ outcome (@smooth externals curve 1 0.25%Q) = inr smoothed
    /\ calls filter_butterworth_ (trace (@smooth externals curve 1 0.25%Q))
       = 2%nat.
Proof.
  eexists. split; [reflexivity|]. split; [reflexivity|].
  eapply (@filter_called_once_per_channel externals curve _ 4 2 1 0.25%Q);
    reflexivity.
Defined.

Lemma smoothing_is_channelwise_witness :
  exists smoothed : ndarray,
    shape curve = [4; 2]%nat
    /\ outcome (@smooth externals curve 1 0.25%Q) = inr smoothed
    /\ exists y : ndarray,
         @filter_butterworth externals (channel curve 4 1) 1 "lowpass"
           0.25%Q 3 = inr y
         /\ (forall i : nat, get (channel curve 4 1) [i] = get curve [i; 1%nat])
         /\ (forall i : nat, get smoothed [i; 1%nat] = get y [i]).
Proof.
  eexists. split; [reflexivity|]. split; [reflexivity|].
  apply (@smoothing_is_channelwise externals curve _ 4 2 1 0.25%Q);
    [reflexivity | reflexivity | lia].
Defined.

Lemma smoothing_stops_at_first_failure_witness :
  shape curve = [4; 2]%nat /\ (1 < 2)%nat
  /\ outcome (@smooth picky_filter curve 1 0.25%Q)
     = inl (ExternalError "filter")
  /\ calls filter_butterworth_ (trace (@smooth picky_filter curve 1 0.25%Q))
     = 2%nat.
Proof.
  split; [reflexivity|]. split; [lia|].
  apply (@smoothing_stops_at_first_failure picky_filter curve 4 2 1 1
           0.25%Q (ExternalError "filter")).
  - reflexivity.
  - lia.
  - intros k Hk. assert (k = 0%nat) as -> by lia.
    eexists. reflexivity.
  - reflexivity.
Defined.

Lemma no_ground_truth_files_no_work_witness :
  @robustness_analysis_many externals (config_for [] None) [curve]
  = ([get_gt_events_from_dict_], inr ∅)
  /\ @robustness_analysis_batch externals tt (config_for [] None)
       [(curve, LInt 0)]
     = ([get_gt_events_from_dict_], inr ∅).
Proof.
  apply (@no_ground_truth_files_no_work externals (config_for [] None)
           [curve] tt [(curve, LInt 0)]).
  reflexivity.
Defined.

Lemma fewer_inputs_than_files_is_index_error_witness :
  @robustness_analysis_many externals (config None) []
  = ([get_gt_events_from_dict_], inl index_error).
Proof.
  apply (@fewer_inputs_than_files_is_index_error externals (config None)
           "a.csv"%string ground_truth []).
  reflexivity.
Defined.

Lemma batch_fails_after_preparing_the_instance_witness :
  @robustness_analysis_batch externals tt (config None) [(curve, LInt 0)]
  = ([get_gt_events_from_dict_; dataset_getitem_; values_flatten_;
      plot_signal_; pipeline_transform_],
     inl unexpected_sample_rate).
Proof.
  apply (@batch_fails_after_preparing_the_instance externals (config None) tt
           [(curve, LInt 0)] [(curve, LInt 0)] "a.csv"%string ground_truth []
           (LInt 0) [] "A"%string curve [] curve curve
           "Pilot Signal"%string);
    reflexivity.
Defined.

Lemma batch_label_errors_witness :
  @robustness_analysis_batch externals tt (config None) [(curve, LInt 2)]
  = ([get_gt_events_from_dict_; dataset_getitem_], inl index_error).
Proof.
  apply (@batch_label_errors externals (config None) tt [(curve, LInt 2)]
           [(curve, LInt 2)] "a.csv"%string ground_truth []);
    [reflexivity | reflexivity |].
  right. exists 2%Z, []. split; [reflexivity|]. right. simpl. lia.
Defined.

End OrchestratorExtras.

(** ** The augmenting transformer *)

Module AugmentationFacts.

Import Py Augmentation.

Section Augmenter.

Context {P : Pandas}.

Lemma augment_all_inv (augs : list augmentation)
    (df : DataFrame) (label : Label) (id_ : Id) :
  forall acc out : Dataset,
    augment_all augs df label id_ acc = inr out ->
    exists copies : list DataFrame,
      Forall2 (fun a copy => augment a df = inr copy) augs copies
      /\ X out = X acc ++ copies
      /\ y out = y acc ++ repeat label (length augs)
      /\ _id out = _id acc ++ repeat id_ (length augs).
Proof.
  induction augs as [|a augs IH]; intros acc out; simpl.
  - intros [= <-]. exists []. rewrite !app_nil_r. repeat split. constructor.
  - destruct (augment a df) as [e|copy] eqn:Hcopy; [discriminate|].
    intros Hout. destruct (IH _ _ Hout) as (copies & Hall & HX & Hy & Hid).
    simpl in HX, Hy, Hid. exists (copy :: copies).
    rewrite HX, Hy, Hid, <- !app_assoc. repeat split.
    constructor; assumption.
Qed.

Lemma transform_loop_inv (self : Augmenter)
    (rows : list (DataFrame * Label * Id)) :
  forall acc out : Dataset,
    transform_loop self rows acc = inr out ->
    exists blocks : list (list DataFrame),
      Forall2 (fun row block => is_block self (fst (fst row)) block)
              rows blocks
      /\ X out = X acc ++ concat blocks
      /\ y out = y acc
                 ++ each_repeated (S (length (augmentations self)))
                      (List.map (fun row => snd (fst row)) rows)
      /\ _id out = _id acc
                   ++ each_repeated (S (length (augmentations self)))
                        (List.map snd rows).
Proof.
  induction rows as [|[[df label] id_] rows IH]; intros acc out; simpl.
  - intros [= <-]. exists []. rewrite !app_nil_r. repeat split. constructor.
  - destruct (augment_all _ df label id_ _) as [e|acc'] eqn:Hinner;
      [discriminate|].
    intros Hout.
    destruct (augment_all_inv _ _ _ _ _ _ Hinner)
      as (copies & Hcopies & HX' & Hy' & Hid').
    destruct (IH _ _ Hout) as (blocks & Hblocks & HX & Hy & Hid).
    simpl in HX', Hy', Hid'.
    exists ((df :: copies) :: blocks).
    rewrite HX, Hy, Hid, HX', Hy', Hid'. unfold each_repeated. simpl.
    rewrite <- !app_assoc. simpl. repeat split.
    constructor; [|exact Hblocks].
    exists copies. split; [reflexivity | exact Hcopies].
Qed.

Lemma zip3_labels (xs : list DataFrame) :
  forall (ys : list Label) (ids : list Id),
    List.map (fun row => snd (fst row)) (zip3 xs ys ids)
    = take (length (zip3 xs ys ids)) ys.
Proof.
  induction xs as [|x xs IH]; intros [|l ys] [|i ids]; simpl;
    try reflexivity.
  now rewrite IH.
Qed.

Lemma zip3_ids (xs : list DataFrame) :
  forall (ys : list Label) (ids : list Id),
    List.map snd (zip3 xs ys ids) = take (length (zip3 xs ys ids)) ids.
Proof.
  induction xs as [|x xs IH]; intros [|l ys] [|i ids]; simpl;
    try reflexivity.
  now rewrite IH.
Qed.

Lemma zip3_frames (xs : list DataFrame) :
  forall (ys : list Label) (ids : list Id),
    List.map (fun row => fst (fst row)) (zip3 xs ys ids)
    = take (length (zip3 xs ys ids)) xs.
Proof.
  induction xs as [|x xs IH]; intros [|l ys] [|i ids]; simpl;
    try reflexivity.
  now rewrite IH.
Qed.

Lemma zip3_length (xs : list DataFrame) :
  forall (ys : list Label) (ids : list Id),
    (length (zip3 xs ys ids) <= length xs)%nat
    /\ (length (zip3 xs ys ids) <= length ys)%nat
    /\ (length (zip3 xs ys ids) <= length ids)%nat.
Proof.
  induction xs as [|x xs IH]; intros [|l ys] [|i ids]; simpl; try lia.
  specialize (IH ys ids). lia.
Qed.

Lemma blocks_length (self : Augmenter) (dfs : list DataFrame)
    (blocks : list (list DataFrame)) :
  Forall2 (is_block self) dfs blocks ->
  length (concat blocks)
  = (length dfs * S (length (augmentations self)))%nat.
Proof.
  induction 1 as [|df block dfs blocks (copies & -> & Hcopies) _ IH];
    [reflexivity|].
  simpl. rewrite length_app, IH.
  apply Forall2_length in Hcopies. lia.
Qed.

Lemma blocks_lookup (self : Augmenter) (dfs : list DataFrame)
    (blocks : list (list DataFrame)) :
  Forall2 (is_block self) dfs blocks ->
  forall (i : nat) (df : DataFrame),
    dfs !! i = Some df ->
    concat blocks !! (i * S (length (augmentations self)))%nat = Some df.
Proof.
  induction 1 as [|df0 block dfs blocks (copies & -> & Hcopies) _ IH];
    intros i df Hdf; [discriminate|].
  destruct i as [|i]; simpl in *; [exact Hdf|].
  apply Forall2_length in Hcopies.
  rewrite lookup_app_r by lia.
  replace (_ + i * _ - _)%nat
    with (i * S (length (augmentations self)))%nat by lia.
  now apply IH.
Qed.

Lemma rows_blocks (self : Augmenter) (rows : list (DataFrame * Label * Id))
    (blocks : list (list DataFrame)) :
  Forall2 (fun row block => is_block self (fst (fst row)) block) rows blocks ->
  Forall2 (is_block self) (List.map (fun row => fst (fst row)) rows) blocks.
Proof. induction 1; simpl; constructor; assumption. Qed.

(** X12. What [transform] returns has, for every instance that [zip] pairs
    up, the label and the id once for the original and once more for every
    augmentation, whatever the augmentation functions compute and whatever
    [repeats] is; the three lists of the result are equally long. *)
Theorem transform_repeats_labels_and_ids (self : Augmenter)
    (data out : Dataset) :
  transform self data = inr out ->
  y out = each_repeated (S (length (augmentations self)))
            (take (instances data) (y data))
  /\ _id out = each_repeated (S (length (augmentations self)))
                 (take (instances data) (_id data))
  /\ length (X out)
     = (instances data * S (length (augmentations self)))%nat
  /\ length (y out) = length (X out)
  /\ length (_id out) = length (X out).
Proof.
  unfold transform, instances. intros Hout.
  destruct (transform_loop_inv _ _ _ _ Hout)
    as (blocks & Hblocks & HX & Hy & Hid).
  simpl in HX, Hy, Hid. rewrite zip3_labels in Hy. rewrite zip3_ids in Hid.
  apply rows_blocks in Hblocks. rewrite zip3_frames in Hblocks.
  pose proof (blocks_length _ _ _ Hblocks) as Hlen.
  set (n := length (zip3 (X data) (y data) (_id data))) in *.
  assert (Hn : forall (A : Type) (l : list A) (k : nat),
             length (each_repeated k l) = (length l * k)%nat).
  { intros A l k. unfold each_repeated.
    induction l as [|a l IH]; simpl; [reflexivity|].
    now rewrite length_app, repeat_length, IH. }
  destruct (zip3_length (X data) (y data) (_id data)) as (Hx & Hyl & Hidl).
  fold n in Hx, Hyl, Hidl.
  apply Nat.min_l in Hx, Hyl, Hidl.
  rewrite <- length_take in Hx. rewrite <- length_take in Hyl.
  rewrite <- length_take in Hidl.
  rewrite Hx in Hlen.
  repeat split.
  - exact Hy.
  - exact Hid.
  - now rewrite HX.
  - rewrite Hy, HX, Hn, Hyl. simpl. lia.
  - rewrite Hid, HX, Hn, Hidl. simpl. lia.
Qed.

(** X13. The frames that [transform] returns come in blocks, one per
    instance and in the order of the instances: the original frame first
    (so every original is kept, the i-th at position i * (1 + number of
    augmentations)), then its augmented copies in the order of the
    augmentations. *)
Theorem transform_keeps_originals_in_blocks (self : Augmenter)
    (data out : Dataset) :
  transform self data = inr out ->
  exists blocks : list (list DataFrame),
    X out = concat blocks
    /\ Forall2 (is_block self) (take (instances data) (X data)) blocks
    /\ (forall (i : nat) (df : DataFrame),
          (i < instances data)%nat -> X data !! i = Some df ->
          X out !! (i * S (length (augmentations self)))%nat = Some df).
Proof.
  unfold transform, instances. intros Hout.
  destruct (transform_loop_inv _ _ _ _ Hout)
    as (blocks & Hblocks & HX & _ & _).
  simpl in HX. apply rows_blocks in Hblocks.
  rewrite zip3_frames in Hblocks.
  exists blocks. split; [exact HX|]. split; [exact Hblocks|].
  intros i df Hi Hdf. rewrite HX.
  apply (blocks_lookup _ _ _ Hblocks).
  now rewrite lookup_take_lt.
Qed.

Lemma augment_all_returns (augs : list augmentation) (df : DataFrame)
    (label : Label) (id_ : Id) :
  Forall (fun a => exists copy, augment a df = inr copy) augs ->
  forall acc : Dataset,
    exists out, augment_all augs df label id_ acc = inr out.
Proof.
  induction 1 as [|a augs [copy Hcopy] _ IH]; intros acc; simpl.
  - eauto.
  - rewrite Hcopy. apply IH.
Qed.

(** X14. [transform] returns a dataset exactly when every augmentation
    returns on every instance; one augmentation raising on one instance
    makes the whole call raise, with no partial dataset. *)
Theorem transform_returns_iff_all_augmentations_do (self : Augmenter)
    (data : Dataset) :
  (exists out, transform self data = inr out)
  <-> Forall (augmentable self) (zip3 (X data) (y data) (_id data)).
Proof.
  unfold transform. split.
  - intros [out Hout].
    destruct (transform_loop_inv _ _ _ _ Hout) as (blocks & Hblocks & _).
    clear Hout. induction Hblocks as [|row block rows blocks Hb _ IH];
      constructor; [|exact IH].
    destruct Hb as (copies & _ & Hcopies). unfold augmentable.
    clear -Hcopies. induction Hcopies; constructor; eauto.
  - intros Hall. generalize (mkDataset [] [] []).
    induction Hall as [|[[df label] id_] rows Hrow _ IH]; intros acc; simpl.
    + eauto.
    + destruct (augment_all_returns _ df label id_ Hrow
                  (mkDataset (X acc ++ [df]) (y acc ++ [label])
                             (_id acc ++ [id_]))) as [acc' ->].
      apply IH.
Qed.

(** X15. Without augmentations [transform] gives back a dataset with the
    same three lists, when these are equally long. *)
Theorem transform_without_augmentations (self : Augmenter) (data : Dataset) :
  augmentations self = [] ->
  length (X data) = length (y data) ->
  length (y data) = length (_id data) ->
  transform self data = inr (mkDataset (X data) (y data) (_id data)).
Proof.
  intros Hnone. unfold transform.
  assert (Hloop : forall xs ys ids acc,
             length xs = length ys -> length ys = length ids ->
             transform_loop self (zip3 xs ys ids) acc
             = inr (mkDataset (X acc ++ xs) (y acc ++ ys) (_id acc ++ ids))).
  { induction xs as [|x xs IH]; intros [|l ys] [|i ids] acc Hxy Hyi;
      simpl in *; try discriminate.
    - now rewrite !app_nil_r; destruct acc.
    - rewrite Hnone. simpl. rewrite IH by lia. simpl.
      now rewrite <- !app_assoc. }
  intros Hxy Hyi. now rewrite Hloop.
Qed.

End Augmenter.

Lemma transform_repeats_labels_and_ids_witness :
  exists out : @Dataset int_frames,
    @transform int_frames (mkAugmenter [shift; scale] 1) two_instances
    = inr out
    /\ y out = ["a"; "a"; "a"; "b"; "b"; "b"]%string
    /\ _id out = [7; 7; 7; 8; 8; 8]%nat
    /\ length (X out) = 6%nat
    /\ length (y out) = length (X out)
    /\ length (_id out) = length (X out).
Proof.
  eexists. split; [reflexivity|].
  apply (@transform_repeats_labels_and_ids int_frames
           (mkAugmenter [shift; scale] 1) two_instances).
  reflexivity.
Defined.

Lemma transform_keeps_originals_in_blocks_witness :
  exists (out : @Dataset int_frames) (blocks : list (list (list (list Z)))),
    @transform int_frames (mkAugmenter [shift; scale] 1) two_instances
    = inr out
    /\ X out = concat blocks
    /\ Forall2 (@is_block int_frames (mkAugmenter [shift; scale] 1))
         [[[1; 2]]; [[3; 4]]]%Z blocks
    /\ (forall (i : nat) (df : list (list Z)),
          (i < 2)%nat -> X two_instances !! i = Some df ->
          X out !! (i * 3)%nat = Some df).
Proof.
  destruct (@transform_keeps_originals_in_blocks int_frames
              (mkAugmenter [shift; scale] 1) two_instances _ eq_refl)
    as (blocks & Hblocks).
  eexists _, blocks. split; [reflexivity | exact Hblocks].
Defined.

Lemma transform_without_augmentations_witness :
  length (X aligned_instances) = length (y aligned_instances)
  /\ length (y aligned_instances) = length (_id aligned_instances)
  /\ @transform int_frames (mkAugmenter [] 5) aligned_instances
     = inr aligned_instances.
Proof.
  split; [reflexivity|]. split; [reflexivity|].
  apply (@transform_without_augmentations int_frames (mkAugmenter [] 5)
           aligned_instances); reflexivity.
Defined.

End AugmentationFacts.

(** ** Saving, loading, roll-off *)

Module PersistFacts.

Import Py Persist.

Lemma endswith_append (a b : string) : endswith (a ++ b) b = true.
Proof.
  induction a as [|c a IH]; simpl.
  - destruct b; simpl; now rewrite ?String.eqb_refl, ?Ascii.eqb_refl.
  - rewrite IH. apply orb_true_r.
Qed.

Lemma pkl_name_endswith (filename : string) :
  endswith (pkl_name filename) ".pkl" = true.
Proof.
  unfold pkl_name.
  destruct (endswith filename ".pkl") eqn:Hends; simpl;
    [exact Hends | apply endswith_append].
Qed.

Section SklearnToPkl.

Variable Model : Type.
Variable is_estimator : Model -> bool.
Variable dump : Model -> string -> result unit.

Abbreviation sklearn_to_pkl := (sklearn_to_pkl Model is_estimator dump).

(** X16. An estimator is dumped exactly once, to a file whose name ends in
    [.pkl]: the given name when it already ends so (no second suffix is
    added), the given name followed by [.pkl] otherwise; saving again under
    the name that was used uses that name again. *)
Theorem saved_under_a_pkl_name (model : Model) (filename : string) :
  is_estimator model = true ->
  exists name : string,
    (fst (sklearn_to_pkl model filename) = [Dumped name]
     \/ fst (sklearn_to_pkl model filename)
        = [Dumped name; Printed ("Model saved to " ++ name)])
    /\ endswith name ".pkl" = true
    /\ (endswith filename ".pkl" = true -> name = filename)
    /\ (endswith filename ".pkl" = false -> name = (filename ++ ".pkl")%string)
    /\ (fst (sklearn_to_pkl model name) = [Dumped name]
        \/ fst (sklearn_to_pkl model name)
           = [Dumped name; Printed ("Model saved to " ++ name)]).
Proof.
  intros Hmodel. exists (pkl_name filename).
  pose proof (pkl_name_endswith filename) as Hends.
  assert (Hagain : pkl_name (pkl_name filename) = pkl_name filename).
  { unfold pkl_name at 1. now rewrite Hends. }
  unfold Persist.sklearn_to_pkl. rewrite Hmodel. cbn [negb]. cbv zeta.
  rewrite Hagain.
  split; [destruct (dump model (pkl_name filename)); auto|].
  split; [exact Hends|].
  split; [intros H; unfold pkl_name; now rewrite H|].
  split; [intros H; unfold pkl_name; now rewrite H|].
  destruct (dump model (pkl_name filename)); auto.
Qed.

(** X17. Success is reported only for a model that was really written: the
    call returns exactly when the model is an estimator and the dump
    returned; a printed line means that the call returned, and it names the
    file of the dump; for something that is not an estimator nothing is
    dumped or printed and the [ValueError] is raised. *)
Theorem reports_what_was_dumped (model : Model) (filename : string) :
  (snd (sklearn_to_pkl model filename) = inr tt
   <-> is_estimator model = true
       /\ dump model (pkl_name filename) = inr tt)
  /\ (forall line : string,
        In (Printed line) (fst (sklearn_to_pkl model filename)) ->
        snd (sklearn_to_pkl model filename) = inr tt
        /\ In (Dumped (pkl_name filename))
              (fst (sklearn_to_pkl model filename))
        /\ line = ("Model saved to " ++ pkl_name filename)%string)
  /\ (is_estimator model = false ->
      sklearn_to_pkl model filename = ([], inl not_a_model)).
Proof.
  unfold Persist.sklearn_to_pkl.
  destruct (is_estimator model); cbn [negb]; cbv zeta.
  - destruct (dump model (pkl_name filename)) as [e|[]]; cbn [fst snd].
    + split; [|split].
      * split; [intros H; discriminate H | intros [_ H]; discriminate H].
      * intros line [H|[]]. discriminate H.
      * intros H; discriminate H.
    + split; [|split].
      * split; [intros _; split; reflexivity | reflexivity].
      * intros line [H|[H|[]]]; [discriminate H|].
        injection H as <-. split; [reflexivity|].
        split; [now left | reflexivity].
      * intros H; discriminate H.
  - cbn [fst snd]. split; [|split].
    + split; [intros H; discriminate H | intros [H _]; discriminate H].
    + intros line [].
    + reflexivity.
Qed.

End SklearnToPkl.

Lemma saved_under_a_pkl_name_witness :
  exists name : string,
    (fst (sklearn_to_pkl bool (fun m => m) (fun _ _ => inr tt) true "model")
     = [Dumped name]
     \/ fst (sklearn_to_pkl bool (fun m => m) (fun _ _ => inr tt) true "model")
        = [Dumped name; Printed ("Model saved to " ++ name)])
    /\ endswith name ".pkl" = true
    /\ (endswith "model" ".pkl" = true -> name = "model"%string)
    /\ (endswith "model" ".pkl" = false -> name = "model.pkl"%string)
    /\ (fst (sklearn_to_pkl bool (fun m => m) (fun _ _ => inr tt) true name)
        = [Dumped name]
        \/ fst (sklearn_to_pkl bool (fun m => m) (fun _ _ => inr tt) true name)
           = [Dumped name; Printed ("Model saved to " ++ name)]).
Proof.
  apply (saved_under_a_pkl_name bool (fun m => m) (fun _ _ => inr tt) true
           "model"%string).
  reflexivity.
Defined.

End PersistFacts.

Module LoadingFacts.

Import Py Loading.

(** *** Paths *)

Lemma append_assoc (a b c : string) :
  ((a ++ b) ++ c = a ++ (b ++ c))%string.
Proof.
  induction a as [|x a IH]; [reflexivity|].
  change (String x ((a ++ b) ++ c) = String x (a ++ (b ++ c)))%string.
  now f_equal.
Qed.

Lemma append_nonempty (a : string) (c : Ascii.ascii) (b : string) :
  String.eqb (a ++ String c b) "" = false.
Proof. now destruct a. Qed.

Lemma rsplit_no_slash (f : string) :
  no_slash f = true -> rsplit f = (EmptyString, f).
Proof.
  induction f as [|c f IH]; simpl; [reflexivity|].
  intros [Hc Hf]%andb_true_iff. rewrite (IH Hf). simpl.
  now apply negb_true_iff in Hc as ->.
Qed.

Lemma rsplit_append (d f : string) :
  no_slash f = true ->
  rsplit (d ++ String slash f) = ((d ++ String slash "")%string, f).
Proof.
  intros Hf. induction d as [|c d IH]; simpl.
  - now rewrite (rsplit_no_slash f Hf).
  - rewrite IH. now rewrite append_nonempty.
Qed.

Lemma rstrip_no_slash (l : string) :
  no_slash l = true -> rstrip_slashes l = l.
Proof.
  induction l as [|c l IH]; simpl; [reflexivity|].
  intros [Hc Hl]%andb_true_iff. rewrite (IH Hl).
  apply negb_true_iff in Hc as ->. now rewrite andb_false_r.
Qed.

Lemma rstrip_append_slash (x : string) :
  rstrip_slashes (x ++ String slash "") = rstrip_slashes x.
Proof.
  induction x as [|c x IH]; simpl; [reflexivity | now rewrite IH].
Qed.

Lemma rstrip_append (a b : string) :
  String.eqb (rstrip_slashes b) "" = false ->
  rstrip_slashes (a ++ b) = (a ++ rstrip_slashes b)%string.
Proof.
  intros Hb. induction a as [|c a IH]; simpl; [reflexivity|].
  rewrite IH.
  destruct (rstrip_slashes b) as [|x r]; [discriminate Hb|].
  now rewrite append_nonempty.
Qed.

Lemma label_of_path (dir label file : string) :
  no_slash label = true -> label <> EmptyString -> no_slash file = true ->
  basename (dirname (in_class_directory dir label file)) = label
  /\ basename (in_class_directory dir label file) = file.
Proof.
  intros Hlabel Hne Hfile. unfold in_class_directory, basename, dirname.
  replace (dir ++ String slash (label ++ String slash file))%string
    with ((dir ++ String slash label) ++ String slash file)%string
    by (rewrite append_assoc; reflexivity).
  rewrite (rsplit_append _ file Hfile). cbn [fst snd].
  rewrite rstrip_append_slash.
  assert (Hstrip : rstrip_slashes (dir ++ String slash label)
                   = (dir ++ String slash label)%string).
  { change (String slash label) with (String slash "" ++ label)%string.
    rewrite <- append_assoc.
    rewrite rstrip_append; rewrite (rstrip_no_slash label Hlabel);
      [reflexivity|].
    destruct label; [contradiction | reflexivity]. }
  rewrite Hstrip, !append_nonempty. cbn [negb andb].
  split; [|reflexivity].
  now rewrite (rsplit_append dir label Hlabel).
Qed.

(** *** The loader *)

Section CsvLoader.

Variables DataFrame Frame Header : Type.
Variable glob : string -> list string.
Variable read_csv :
  string -> Header -> option (list string) -> result DataFrame.
Variable make_frame : list DataFrame -> list string -> list string -> Frame.

Abbreviation progress := (progress DataFrame).
Abbreviation load := (load DataFrame Header read_csv).
Abbreviation readable := (readable DataFrame Header read_csv).
Abbreviation csv_loader :=
  (csv_loader DataFrame Frame Header glob read_csv make_frame).

(** The loop adds one entry per readable file and one error line per other
    file, in the order of the files. *)
Lemma load_inv (header : Header) (channels : option (list string))
    (file_paths : list string) :
  forall acc : progress,
    let done := load header channels file_paths acc in
    let good := List.filter (readable header channels) file_paths in
    let bad :=
      List.filter (fun p => negb (readable header channels p)) file_paths in
    exists (frames : list DataFrame) (errors : list exn),
      Forall2 (fun p df => read_csv p header channels = inr df) good frames
      /\ Forall2 (fun p e => read_csv p header channels = inl e) bad errors
      /\ all_features _ done = all_features _ acc ++ frames
      /\ all_y _ done
         = all_y _ acc ++ List.map (fun p => basename (dirname p)) good
      /\ all_id _ done = all_id _ acc ++ List.map basename good
      /\ printed _ done = printed _ acc ++ combine bad errors.
Proof.
  induction file_paths as [|p rest IH]; intros acc; simpl.
  - exists [], []. rewrite !app_nil_r. repeat split; constructor.
  - destruct (read_csv p header channels) as [e|df] eqn:Hread.
    + assert (Hr : readable header channels p = false)
        by (unfold Loading.readable; now rewrite Hread).
      rewrite Hr. simpl.
      destruct (IH (mkProgress _ (all_features _ acc) (all_y _ acc)
                      (all_id _ acc) (printed _ acc ++ [(p, e)])))
        as (frames & errors & Hgood & Hbad & HX & Hy & Hid & Hp).
      exists frames, (e :: errors). simpl in *.
      rewrite HX, Hy, Hid, Hp, <- app_assoc.
      repeat split; [exact Hgood | constructor; assumption].
    + assert (Hr : readable header channels p = true)
        by (unfold Loading.readable; now rewrite Hread).
      rewrite Hr. simpl.
      destruct (IH (mkProgress _ (all_features _ acc ++ [df])
                      (all_y _ acc ++ [basename (dirname p)])
                      (all_id _ acc ++ [basename p]) (printed _ acc)))
        as (frames & errors & Hgood & Hbad & HX & Hy & Hid & Hp).
      exists (df :: frames), errors. simpl in *.
      rewrite HX, Hy, Hid, Hp, <- !app_assoc.
      repeat split; [constructor; assumption | exact Hbad].
Qed.

Lemma csv_loader_dict_inv (dataset_path : string) (header : Header)
    (channels : option (list string)) :
  let file_paths := glob (search_pattern dataset_path) in
  let good := List.filter (readable header channels) file_paths in
  exists (X : list DataFrame) (y id : list string)
         (lines : list (string * exn)),
    csv_loader dataset_path header channels "dict" = (lines, AsDict _ _ X y id)
    /\ Forall2 (fun p df => read_csv p header channels = inr df) good X
    /\ y = List.map (fun p => basename (dirname p)) good
    /\ id = List.map basename good
    /\ List.map fst lines
       = List.filter (fun p => negb (readable header channels p)) file_paths
    /\ Forall (fun line => read_csv (fst line) header channels
                           = inl (snd line)) lines
    /\ length y = length X /\ length id = length X
    /\ (length X + length lines = length file_paths)%nat.
Proof.
  intros file_paths good. unfold Loading.csv_loader.
  fold file_paths.
  destruct (load_inv header channels file_paths (mkProgress _ [] [] [] []))
    as (frames & errors & Hgood & Hbad & HX & Hy & Hid & Hp).
  cbv zeta in *. simpl in HX, Hy, Hid, Hp. fold good in Hgood, Hy, Hid.
  set (bad := List.filter (fun p => negb (readable header channels p))
                file_paths) in *.
  eexists _, _, _, _. split; [reflexivity|].
  rewrite HX, Hy, Hid, Hp.
  pose proof (Forall2_length _ _ _ Hgood) as Hlg.
  pose proof (Forall2_length _ _ _ Hbad) as Hlb.
  split; [exact Hgood|]. split; [reflexivity|]. split; [reflexivity|].
  split; [|split; [|split; [|split]]].
  - clear -Hbad. induction Hbad; simpl; [reflexivity | now f_equal].
  - clear -Hbad. induction Hbad; simpl; constructor; assumption.
  - now rewrite length_map.
  - now rewrite length_map.
  - rewrite length_combine, <- Hlb, Nat.min_id, <- Hlg.
    subst good bad. clear.
    induction file_paths as [|p ps IH]; simpl; [reflexivity|].
    destruct (readable header channels p); simpl; lia.
Qed.

(** X18. What the loader returns as a dict is aligned: the readable files,
    in the order in which they were found, give the frames, their parent
    directory names give [y] and their file names give [id]; every other
    file gives one error line and nothing else, so the three lists are
    equally long and no file is lost or counted twice. *)
Theorem loader_lists_are_aligned (dataset_path : string) (header : Header)
    (channels : option (list string)) :
  let file_paths := glob (search_pattern dataset_path) in
  let good := List.filter (readable header channels) file_paths in
  exists (X : list DataFrame) (y id : list string)
         (lines : list (string * exn)),
    csv_loader dataset_path header channels "dict" = (lines, AsDict _ _ X y id)
    /\ Forall2 (fun p df => read_csv p header channels = inr df) good X
    /\ y = List.map (fun p => basename (dirname p)) good
    /\ id = List.map basename good
    /\ List.map fst lines
       = List.filter (fun p => negb (readable header channels p)) file_paths
    /\ Forall (fun line => read_csv (fst line) header channels
                           = inl (snd line)) lines
    /\ length y = length X /\ length id = length X
    /\ (length X + length lines = length file_paths)%nat.
Proof. apply csv_loader_dict_inv. Qed.

(** X19. The export mode only chooses the packaging: every mode reads the
    same files and prints the same error lines; ["df"] wraps the very lists
    that ["dict"] returns, and any other mode returns [None] after all that
    work, without raising. *)
Theorem export_only_packages (dataset_path : string) (header : Header)
    (channels : option (list string)) (export : string) :
  exists (X : list DataFrame) (y id : list string)
         (lines : list (string * exn)),
    csv_loader dataset_path header channels "dict" = (lines, AsDict _ _ X y id)
    /\ csv_loader dataset_path header channels "df"
       = (lines, AsFrame _ _ (make_frame X y id))
    /\ (export <> "df"%string -> export <> "dict"%string ->
        csv_loader dataset_path header channels export
        = (lines, ReturnsNone _ _)).
Proof.
  unfold Loading.csv_loader. cbv zeta.
  eexists _, _, _, _. split; [reflexivity|]. split; [reflexivity|].
  intros Hdf Hdict.
  rewrite (proj2 (String.eqb_neq _ _) Hdf), (proj2 (String.eqb_neq _ _) Hdict).
  reflexivity.
Qed.

(** X20. The label of a loaded file is the name of the directory it lies
    in, and its id is its file name: when the files found are of the form
    [dir/label/file] and all readable, [y] lists the labels and [id] the
    file names. *)
Theorem labels_are_parent_directories (dataset_path : string)
    (header : Header) (channels : option (list string))
    (found : list (string * string * string)) :
  glob (search_pattern dataset_path)
  = List.map (fun t => in_class_directory (fst (fst t)) (snd (fst t)) (snd t))
             found ->
  Forall (fun t => no_slash (snd (fst t)) = true
                   /\ snd (fst t) <> EmptyString
                   /\ no_slash (snd t) = true
                   /\ readable header channels
                        (in_class_directory (fst (fst t)) (snd (fst t))
                           (snd t)) = true) found ->
  exists (X : list DataFrame) (lines : list (string * exn)),
    csv_loader dataset_path header channels "dict"
    = (lines,
       AsDict _ _ X (List.map (fun t => snd (fst t)) found)
              (List.map snd found))
    /\ lines = [] /\ length X = length found.
Proof.
  intros Hglob Hfound.
  destruct (csv_loader_dict_inv dataset_path header channels)
    as (X & y & id & lines & Hrun & Hgood & Hy & Hid & Hlines & _ & _ & _ & _).
  rewrite Hglob in *.
  assert (Hall : List.filter (readable header channels)
                   (List.map (fun t => in_class_directory (fst (fst t))
                                         (snd (fst t)) (snd t)) found)
                 = List.map (fun t => in_class_directory (fst (fst t))
                                        (snd (fst t)) (snd t)) found).
  { clear -Hfound. induction Hfound as [|t ts (_ & _ & _ & Hr) _ IH];
      simpl; [reflexivity|]. now rewrite Hr, IH. }
  assert (Hnone : List.filter (fun p => negb (readable header channels p))
                    (List.map (fun t => in_class_directory (fst (fst t))
                                          (snd (fst t)) (snd t)) found)
                  = []).
  { clear -Hfound. induction Hfound as [|t ts (_ & _ & _ & Hr) _ IH];
      simpl; [reflexivity|]. now rewrite Hr. }
  rewrite Hall in Hgood, Hy, Hid. rewrite Hnone in Hlines.
  exists X, lines. split; [|split].
  - rewrite Hrun. f_equal. f_equal.
    + rewrite Hy, List.map_map. clear -Hfound.
      induction Hfound as [|t ts (Hl & Hne & Hf & _) _ IH]; simpl;
        [reflexivity|].
      rewrite IH. f_equal. now apply label_of_path.
    + rewrite Hid, List.map_map. clear -Hfound.
      induction Hfound as [|t ts (Hl & Hne & Hf & _) _ IH]; simpl;
        [reflexivity|].
      rewrite IH. f_equal. now apply label_of_path.
  - now destruct lines.
  - apply Forall2_length in Hgood. now rewrite length_map in Hgood.
Qed.

End CsvLoader.

Lemma labels_are_parent_directories_witness :
  exists (X : list string) (lines : list (string * exn)),
    csv_loader string unit unit two_classes read_path
      (fun _ _ _ => tt) "data" tt None "dict"
    = (lines, AsDict _ _ X ["walk"; "run"]%string ["a.csv"; "b.csv"]%string)
    /\ lines = [] /\ length X = 2%nat.
Proof.
  apply (labels_are_parent_directories string unit unit two_classes
           read_path (fun _ _ _ => tt) "data"%string tt None
           [("data", "walk", "a.csv"); ("data", "run", "b.csv")]%string).
  - reflexivity.
  - repeat constructor; discriminate.
Defined.

End LoadingFacts.

Module SpectralFacts.

Import Py Spectral.
Open Scope Q_scope.

Lemma where_ge_from_lower (l : list Q) (threshold : Q) :
  forall i : nat, Forall (fun j => (i <= j)%nat) (where_ge_from i l threshold).
Proof.
  induction l as [|x l IH]; intros i; simpl; [constructor|].
  destruct (Qle_bool threshold x).
  - constructor; [lia|].
    eapply Forall_impl; [apply IH | simpl; intros; lia].
  - eapply Forall_impl; [apply IH | simpl; intros; lia].
Qed.

Lemma min_of_lower_bound (i : nat) (rest : list nat) :
  Forall (fun j => (i <= j)%nat) rest -> fold_left Nat.min rest i = i.
Proof.
  induction 1 as [|j rest Hj _ IH]; simpl; [reflexivity|].
  now rewrite Nat.min_l.
Qed.

Lemma where_ge_from_sorted (l : list Q) (threshold : Q) :
  forall (i k : nat) (rest : list nat),
    where_ge_from i l threshold = k :: rest ->
    Forall (fun j => (k <= j)%nat) rest.
Proof.
  induction l as [|x l IH]; intros i k rest; simpl; [discriminate|].
  destruct (Qle_bool threshold x).
  - intros [= <- <-].
    eapply Forall_impl; [apply where_ge_from_lower | simpl; intros; lia].
  - apply IH.
Qed.

(** The first position of [l], counted from [i], whose entry reaches the
    threshold. *)
Lemma where_ge_from_head (l : list Q) (threshold : Q) :
  forall (i k : nat) (rest : list nat),
    where_ge_from i l threshold = k :: rest ->
    (i <= k)%nat
    /\ (exists c, l !! (k - i)%nat = Some c /\ threshold <= c)
    /\ (forall (j : nat) (c : Q),
          (j < k - i)%nat -> l !! j = Some c -> c < threshold).
Proof.
  induction l as [|x l IH]; intros i k rest; simpl; [discriminate|].
  destruct (Qle_bool threshold x) eqn:Hx.
  - intros [= <- _]. split; [lia|]. rewrite Nat.sub_diag. split.
    + exists x. split; [reflexivity | now apply Qle_bool_iff].
    + intros j c Hj. lia.
  - intros Hrest. destruct (IH _ _ _ Hrest) as (Hik & (c & Hc & Hge) & Hlt).
    split; [lia|].
    replace (k - i)%nat with (S (k - S i)) by lia. split.
    + exists c. split; assumption.
    + intros [|j] c' Hj; simpl.
      * intros [= <-]. apply Qnot_le_lt. intros Hle.
        apply Qle_bool_iff in Hle. congruence.
      * apply Hlt. lia.
Qed.

Lemma where_ge_from_nil (l : list Q) (threshold : Q) :
  forall i : nat,
    where_ge_from i l threshold = [] <-> Forall (fun c => c < threshold) l.
Proof.
  induction l as [|x l IH]; intros i; simpl.
  - split; [constructor | reflexivity].
  - destruct (Qle_bool threshold x) eqn:Hx.
    + split; [discriminate|]. intros Hall.
      apply Forall_inv in Hall. apply Qle_bool_iff in Hx.
      exfalso. apply (Qlt_not_le _ _ Hall Hx).
    + rewrite IH. split.
      * intros Hall. constructor; [|exact Hall].
        apply Qnot_le_lt. intros Hle. apply Qle_bool_iff in Hle. congruence.
      * intros Hall. now apply Forall_inv_tail in Hall.
Qed.

Lemma rolloff_inv (magnitudes : list Q) (sum_mag perc : Q) (i : nat) :
  spectral_rolloff magnitudes sum_mag perc = inr i ->
  (exists c, cumsum magnitudes !! i = Some c /\ perc * sum_mag <= c)
  /\ (forall (j : nat) (c : Q),
        (j < i)%nat -> cumsum magnitudes !! j = Some c ->
        c < perc * sum_mag).
Proof.
  unfold spectral_rolloff, where_ge, np_min. cbv zeta.
  destruct (where_ge_from 0 (cumsum magnitudes) (perc * sum_mag))
    as [|k rest] eqn:Hwhere; [discriminate|].
  intros [= <-].
  pose proof (where_ge_from_sorted _ _ _ _ _ Hwhere) as Hk.
  rewrite (min_of_lower_bound k rest Hk).
  destruct (where_ge_from_head _ _ _ _ _ Hwhere) as (_ & Hat & Hbefore).
  rewrite Nat.sub_0_r in Hat, Hbefore. split; assumption.
Qed.

(** X21. When [spectral_rolloff] returns, it returns a position of the
    spectrum (not a frequency): the least position at which the cumulated
    magnitude reaches [perc] times the total. *)
Theorem rolloff_is_least_position (magnitudes : list Q) (sum_mag perc : Q)
    (i : nat) :
  spectral_rolloff magnitudes sum_mag perc = inr i ->
  (i < length magnitudes)%nat
  /\ (exists c, cumsum magnitudes !! i = Some c /\ perc * sum_mag <= c)
  /\ (forall (j : nat) (c : Q),
        (j < i)%nat -> cumsum magnitudes !! j = Some c ->
        c < perc * sum_mag).
Proof.
  intros Hrun. destruct (rolloff_inv _ _ _ _ Hrun) as [Hat Hbefore].
  split; [|split; assumption].
  destruct Hat as (c & Hc & _). apply lookup_lt_Some in Hc.
  assert (Hlen : forall (l : list Q) (start : Q),
             length (cumsum_from start l) = length l).
  { induction l as [|x l IH]; intros start; simpl; [reflexivity|].
    now rewrite IH. }
  unfold cumsum in Hc. now rewrite Hlen in Hc.
Qed.

Lemma rolloff_raises_aux (magnitudes : list Q) (sum_mag perc : Q) :
  (exists e, spectral_rolloff magnitudes sum_mag perc = inl e)
  <-> Forall (fun c => c < perc * sum_mag) (cumsum magnitudes).
Proof.
  unfold spectral_rolloff, where_ge, np_min. cbv zeta.
  rewrite <- (where_ge_from_nil (cumsum magnitudes) (perc * sum_mag) 0).
  destruct (where_ge_from 0 (cumsum magnitudes) (perc * sum_mag)).
  - split; [reflexivity | eexists; reflexivity].
  - split; [intros [e He]; discriminate He | discriminate].
Qed.


(** X23. The roll-off position grows with [perc]: for a nonnegative total,
    a larger [perc] never gives an earlier position, and if the call returns
    for the larger [perc] it returns for the smaller one. *)
Theorem rolloff_is_monotone (magnitudes : list Q) (sum_mag p1 p2 : Q)
    (i2 : nat) :
  0 <= sum_mag -> p1 <= p2 ->
  spectral_rolloff magnitudes sum_mag p2 = inr i2 ->
  exists i1 : nat,
    spectral_rolloff magnitudes sum_mag p1 = inr i1 /\ (i1 <= i2)%nat.
Proof.
  intros Hsum Hp Hrun2.
  destruct (rolloff_inv _ _ _ _ Hrun2) as [(c & Hc & Hge) _].
  assert (Hthr : p1 * sum_mag <= p2 * sum_mag)
    by (apply Qmult_le_compat_r; assumption).
  destruct (spectral_rolloff magnitudes sum_mag p1) as [e|i1] eqn:Hrun1.
  - exfalso.
    assert (Hnever : Forall (fun c => c < p1 * sum_mag) (cumsum magnitudes)).
    { apply (proj1 (rolloff_raises_aux magnitudes sum_mag p1)). eauto. }
    rewrite List.Forall_forall in Hnever.
    assert (Hin : In c (cumsum magnitudes)).
    { apply list_elem_of_In, list_elem_of_lookup. eauto. }
    specialize (Hnever c Hin). lra.
  - exists i1. split; [reflexivity|].
    destruct (rolloff_inv _ _ _ _ Hrun1) as [_ Hbefore].
    destruct (Nat.le_gt_cases i1 i2) as [Hle|Hgt]; [exact Hle|].
    specialize (Hbefore i2 c Hgt Hc). lra.
Qed.

Lemma rolloff_is_least_position_witness :
  spectral_rolloff [1; 2; 3; 4] 10 0.5 = inr 2%nat
  /\ (2 < length [1; 2; 3; 4])%nat
  /\ (exists c, cumsum [1; 2; 3; 4] !! 2%nat = Some c /\ 0.5 * 10 <= c)
  /\ (forall (j : nat) (c : Q),
        (j < 2)%nat -> cumsum [1; 2; 3; 4] !! j = Some c -> c < 0.5 * 10).
Proof.
  split; [reflexivity|].
  apply (rolloff_is_least_position [1; 2; 3; 4] 10 0.5 2). reflexivity.
Defined.

Lemma rolloff_is_monotone_witness :
  0 <= 10 /\ 0.5 <= 0.95
  /\ spectral_rolloff [1; 2; 3; 4] 10 0.95 = inr 3%nat
  /\ exists i1 : nat,
       spectral_rolloff [1; 2; 3; 4] 10 0.5 = inr i1 /\ (i1 <= 3)%nat.
Proof.
  split; [discriminate|]. split; [discriminate|]. split; [reflexivity|].
  apply (rolloff_is_monotone [1; 2; 3; 4] 10 0.5 0.95 3);
    [discriminate | discriminate | reflexivity].
Defined.

End SpectralFacts.
